(** * rag_console client core: stream decoding, auth session, chat engine

    Shallow embedding of the TypeScript client
    ([front/client/lib/api.ts], [context/AuthContext.tsx], [pages/Chat.tsx])
    together with the properties of its natural-language specification. *)

From Stdlib.Strings Require Import String Ascii Byte.
From Stdlib Require Import NArith ZArith QArith Bool Lia Arith List.
From Stdlib Require Import DecimalString.
From Equations Require Import Equations.
Import ListNotations.

Close Scope Q_scope.
Local Open Scope list_scope.

(** ** JavaScript strings

    A JS string is a sequence of UTF-16 code units.  [indexOf], [slice],
    [startsWith] and [trim] all work on code units. *)
Module JS.

Definition codeunit := N.
Definition jsstring := list codeunit.

(** An ASCII literal of the source, as code units. *)
Definition lit (s : string) : jsstring :=
  map N_of_ascii (list_ascii_of_string s).
Arguments lit s%_string.

Definition LF : codeunit := 10%N.

(** ECMAScript WhiteSpace and LineTerminator code points, the set that
    [String.prototype.trim] removes. *)
Definition isWhiteSpace (c : codeunit) : bool :=
  ((9 <=? c) && (c <=? 13) || (c =? 32) || (c =? 160) || (c =? 5760)
   || (8192 <=? c) && (c <=? 8202) || (c =? 8232) || (c =? 8233)
   || (c =? 8239) || (c =? 8287) || (c =? 12288) || (c =? 65279))%N.

Fixpoint trimStart (s : jsstring) : jsstring :=
  match s with
  | [] => []
  | c :: t => if isWhiteSpace c then trimStart t else s
  end.

Definition trimEnd (s : jsstring) : jsstring := rev (trimStart (rev s)).

Definition trim (s : jsstring) : jsstring := trimEnd (trimStart s).

Fixpoint startsWith (s pat : jsstring) {struct pat} : bool :=
  match pat, s with
  | [], _ => true
  | _ :: _, [] => false
  | p :: pat', c :: s' => (c =? p)%N && startsWith s' pat'
  end.

(** [s.indexOf(pat)]: the leftmost position, [None] standing for [-1]. *)
Fixpoint indexOf (s pat : jsstring) : option nat :=
  if startsWith s pat then Some 0
  else match s with
       | [] => None
       | _ :: s' => option_map S (indexOf s' pat)
       end.

(** [s.slice(0, n)] and [s.slice(n)] for [0 <= n]. *)
Definition sliceTo (s : jsstring) (n : nat) : jsstring := firstn n s.
Definition sliceFrom (s : jsstring) (n : nat) : jsstring := skipn n s.

Fixpoint eqb (a b : jsstring) : bool :=
  match a, b with
  | [], [] => true
  | x :: a', y :: b' => (x =? y)%N && eqb a' b'
  | _, _ => false
  end.

(** Truthiness of a string: every string but the empty one. *)
Definition truthy (s : jsstring) : bool :=
  match s with [] => false | _ :: _ => true end.

(** A possibly-undefined string when it is truthy. *)
Definition present (a : option jsstring) : option jsstring :=
  match a with
  | Some s => if truthy s then Some s else None
  | None => None
  end.

(** [a || b] on possibly-undefined strings. *)
Definition or_else (a : option jsstring) (b : jsstring) : jsstring :=
  match a with
  | Some s => if truthy s then s else b
  | None => b
  end.

End JS.
Import JS.

(** ** The platform's [TextDecoder] (UTF-8, [fatal: false], [ignoreBOM: false])

    [decoder.decode(value, { stream: true })] never flushes: the decoder
    keeps its state between calls.  The state machine below is the UTF-8
    decoder of the WHATWG Encoding Standard, run one byte at a time; a
    malformed sequence yields U+FFFD and an offending byte is processed
    again from the reset state. *)
Module TextDecoder.

Record t := mk {
  code_point : N;
  bytes_seen : N;
  bytes_needed : N;
  lower : N;
  upper : N;
  bom_seen : bool
}.

Definition init : t := mk 0 0 0 128 191 false.

Definition reset (d : t) : t := mk 0 0 0 128 191 (bom_seen d).

Definition REPLACEMENT : N := 65533.

Definition between (lo b hi : N) : bool := ((lo <=? b) && (b <=? hi))%N.

(** The handler when no continuation byte is awaited. *)
Definition lead (d : t) (b : N) : t * list N :=
  if between 0 b 127 then (d, [b])
  else if between 194 b 223 then
    (mk (N.land b 31) 0 1 128 191 (bom_seen d), [])
  else if between 224 b 239 then
    (mk (N.land b 15) 0 2
        (if (b =? 224)%N then 160 else 128)
        (if (b =? 237)%N then 159 else 191) (bom_seen d), [])
  else if between 240 b 244 then
    (mk (N.land b 7) 0 3
        (if (b =? 240)%N then 144 else 128)
        (if (b =? 244)%N then 143 else 191) (bom_seen d), [])
  else (d, [REPLACEMENT]).

(** One byte through the decoder: the new state and the code points emitted. *)
Definition handler (d : t) (b : N) : t * list N :=
  if (bytes_needed d =? 0)%N then lead d b
  else if negb (between (lower d) b (upper d)) then
    let '(d', out) := lead (reset d) b in (d', REPLACEMENT :: out)
  else
    let cp := N.lor (N.shiftl (code_point d) 6) (N.land b 63) in
    let seen := (bytes_seen d + 1)%N in
    if (seen =? bytes_needed d)%N then (reset d, [cp])
    else (mk cp seen (bytes_needed d) 128 191 (bom_seen d), []).

(** A scalar value as UTF-16 code units. *)
Definition utf16 (cp : N) : jsstring :=
  if (cp <? 65536)%N then [cp]
  else let v := (cp - 65536)%N in
       [(55296 + N.shiftr v 10)%N; (56320 + N.land v 1023)%N].

(** Serialising the emitted code points: the first one is dropped when
    it is the byte order mark. *)
Fixpoint serialize (d : t) (cps : list N) : t * jsstring :=
  match cps with
  | [] => (d, [])
  | cp :: rest =>
      if bom_seen d then
        let '(d', s) := serialize d rest in (d', utf16 cp ++ s)
      else
        let d1 := mk (code_point d) (bytes_seen d) (bytes_needed d)
                     (lower d) (upper d) true in
        let '(d', s) := serialize d1 rest in
        (d', if (cp =? 65279)%N then s else utf16 cp ++ s)
  end.

Definition step (d : t) (b : byte) : t * jsstring :=
  let '(d1, cps) := handler d (Byte.to_N b) in serialize d1 cps.

(** [decoder.decode(value, { stream: true })]. *)
Fixpoint decode (d : t) (value : list byte) : t * jsstring :=
  match value with
  | [] => (d, [])
  | b :: bs =>
      let '(d1, s1) := step d b in
      let '(d2, s2) := decode d1 bs in
      (d2, s1 ++ s2)
  end.

End TextDecoder.

(** ** Completions, requests and the state of the browser tab *)

(** How a call ends: with a value, or by throwing (rejecting) with an
    error whose [message] is kept. *)
Inductive Completion (A : Type) : Type :=
| Return (a : A)
| Throw (message : jsstring).
Arguments Return {A} a.
Arguments Throw {A} message.

(** [localStorage], reduced to the one key ["access_token"]: [None] when
    the storage is unavailable (every access throws), otherwise the value
    held under the key. *)
Definition Storage := option (option jsstring).

Record AuthUser := {
  user_id : jsstring;
  email : jsstring;
  username : jsstring;
  role : option jsstring;
  llm_provider : option jsstring;
  llm_model : option jsstring
}.

(** Body of the two query endpoints. *)
Record RagBody := {
  rb_query : jsstring;
  max_chunks : Z;
  score_threshold : Q;
  rb_temperature : Q;
  max_tokens : Z;
  include_sources : bool;
  session_id : option jsstring
}.

Inductive Call :=
| PostLogin (email password : jsstring)
| PostSignup (email username password : jsstring)
             (llm_provider llm_model : option jsstring)
| PostRag (body : RagBody)
| PostRagStream (body : RagBody)
| GetHistory (skip limit : Z) (session_id : option jsstring).

Record Request := {
  call : Call;
  authorization : option jsstring
}.

(** [interface AuthState] of the auth context. *)
Record AuthState := {
  token : option jsstring;
  user : option AuthUser
}.

(** What the code can reach outside its own arguments: the storage, the
    state held by [AuthProvider], and the requests that went out. *)
Record World := {
  localStorage : Storage;
  auth : AuthState;
  sent : list Request
}.

Record Response (B : Type) := {
  status : N;
  statusText : jsstring;
  body : B
}.
Arguments status {B} _.
Arguments statusText {B} _.
Arguments body {B} _.

(** [res.ok]. *)
Definition ok {B : Type} (res : Response B) : bool :=
  ((200 <=? status res) && (status res <=? 299))%N.

(** [window.fetch] applied to a request: it may change the world. *)
Definition Fetch (B : Type) : Type :=
  Request -> World -> Completion (Response B) * World.

(** The browser's own [fetch]: the request goes out and the server's
    answer (or a network failure) comes back. *)
Definition native_fetch {B : Type}
    (server : Request -> Completion (Response B)) : Fetch B :=
  fun req w =>
    (server req,
     {| localStorage := localStorage w; auth := auth w;
        sent := sent w ++ [req] |}).

(** What [res.text()] followed by [text ? JSON.parse(text) : {}] gives:
    a parse failure, [null], or an object seen through the fields the
    code reads.  [detail] stands for [data.detail || data.message]
    rendered as a string; an empty text is an object with no field. *)
Inductive Body (T : Type) : Type :=
| Malformed (message : jsstring)
| JsonNull
| JsonObject (detail : option jsstring) (data : T).
Arguments Malformed {T} message.
Arguments JsonNull {T}.
Arguments JsonObject {T} detail data.

(** A streamed body: the chunks [reader.read()] yields, then either the
    end of the stream or a read failure. *)
Record ReadableStream := {
  chunks : list (list byte);
  failure : option jsstring
}.

(** ** [lib/api.ts] *)
Module Api.

Definition getToken (w : World) : option jsstring :=
  match localStorage w with
  | Some item => item
  | None => None
  end.

Definition setToken (token : option jsstring) (w : World) : World :=
  {| localStorage :=
       match localStorage w with
       | Some _ => Some (present token)
       | None => None
       end;
     auth := auth w;
     sent := sent w |}.

Definition authHeaders (w : World) : option jsstring :=
  match present (getToken w) with
  | Some t => Some (lit "Bearer " ++ t)
  | None => None
  end.

Definition handleJsonResponse {T : Type} (res : Response (Body T))
  : Completion (option T) :=
  match body res with
  | Malformed m => Throw m
  | JsonNull => if ok res then Return None else Throw (statusText res)
  | JsonObject detail data =>
      if ok res then Return (Some data)
      else Throw (or_else detail (statusText res))
  end.

(** Message of the [TypeError] raised by a property read on [null]. *)
Definition NULL_READ : jsstring := lit "Cannot read properties of null".

Record LoginData := {
  access_token : option jsstring;
  login_user : option AuthUser
}.

Definition login (fetch : Fetch (Body LoginData)) (email password : jsstring)
    (w : World) : Completion LoginData * World :=
  let '(r, w1) := fetch {| call := PostLogin email password;
                           authorization := None |} w in
  match r with
  | Throw m => (Throw m, w1)
  | Return res =>
      match handleJsonResponse res with
      | Throw m => (Throw m, w1)
      | Return None => (Throw NULL_READ, w1)
      | Return (Some data) => (Return data, setToken (access_token data) w1)
      end
  end.

Definition signup (fetch : Fetch (Body LoginData))
    (email username password : jsstring)
    (llm_provider llm_model : option jsstring)
    (w : World) : Completion LoginData * World :=
  let '(r, w1) := fetch {| call := PostSignup email username password
                                     llm_provider llm_model;
                           authorization := None |} w in
  match r with
  | Throw m => (Throw m, w1)
  | Return res =>
      match handleJsonResponse res with
      | Throw m => (Throw m, w1)
      | Return None => (Throw NULL_READ, w1)
      | Return (Some data) => (Return data, setToken (access_token data) w1)
      end
  end.

(** An attribution ([any] in the source): opaque to the client, kept as
    its JSON text. *)
Inductive Source := Attribution (json : jsstring).

Record RagResult := {
  response : option jsstring;
  res_processing_time_ms : option Z;
  res_total_tokens : option Z;
  context_documents : option (list Source)
}.

Definition ragQuery (fetch : Fetch (Body RagResult)) (b : RagBody)
    (w : World) : Completion (option RagResult) * World :=
  let '(r, w1) := fetch {| call := PostRag b;
                           authorization := authHeaders w |} w in
  match r with
  | Throw m => (Throw m, w1)
  | Return res => (handleJsonResponse res, w1)
  end.

Definition DATA_MARKER : jsstring := lit "data:".
Definition DONE : jsstring := lit "[DONE]".
Definition BLANK_LINE : jsstring := [LF; LF].


(** A value together with the equation that names it, so that the loop
    below remembers the result of its [indexOf] test. *)
Definition inspect {A : Type} (a : A) : { b : A | a = b } :=
  exist _ a eq_refl.

(** The inner [while ((idx = buffer.indexOf("\n\n")) !== -1)] loop of
    [ragStream]: the payloads handed to [onChunk] in order, the buffer
    left over, and whether the function returned on the sentinel. *)
Equations? drain (buffer : jsstring) : list jsstring * jsstring * bool
  by wf (length buffer) lt :=
drain buffer with inspect (indexOf buffer BLANK_LINE) := {
  | exist _ None _ => ([], buffer, false)
  | exist _ (Some idx) Hidx =>
      let raw := trim (sliceTo buffer idx) in
      let rest := sliceFrom buffer (idx + 2) in
      if negb (truthy raw) then drain rest
      else if startsWith raw DATA_MARKER then
        let payload := trim (sliceFrom raw 5) in
        if JS.eqb payload DONE then ([], rest, true)
        else let '(out, b, ret) := drain rest in (payload :: out, b, ret)
      else let '(out, b, ret) := drain rest in (raw :: out, b, ret) }.
Proof.
  all: assert (SW : forall p s, startsWith s p = true -> length p <= length s)
    by (induction p as [|x p IH]; intros [|c s]; simpl; try lia;
        try discriminate; intros H; apply andb_prop in H as [_ H];
        apply IH in H; lia).
  all: assert (B : forall s i, indexOf s BLANK_LINE = Some i ->
                               i + 2 <= length s)
    by (induction s as [|c s IH]; intros i; cbn [indexOf];
        [ discriminate
        | destruct (startsWith (c :: s) BLANK_LINE) eqn:E;
          [ intros [= <-]; apply SW in E; simpl in *; lia
          | destruct (indexOf s BLANK_LINE) as [j|]; simpl;
            [ intros [= <-]; specialize (IH j eq_refl); lia
            | discriminate ] ] ]).
  all: apply B in Hidx; subst rest; unfold sliceFrom;
    rewrite length_skipn; lia.
Qed.


(** The outer [while (true)] loop: one [reader.read()] per turn.  The
    payloads handed to [onChunk], and how the function ends. *)
Fixpoint read_loop (decoder : TextDecoder.t) (buffer : jsstring)
    (values : list (list byte)) (failure : option jsstring)
  : list jsstring * Completion unit :=
  match values with
  | [] =>
      match failure with
      | Some m => ([], Throw m)
      | None => ([], Return tt)
      end
  | value :: later =>
      let '(decoder1, s) := TextDecoder.decode decoder value in
      let '(out, buffer1, returned) := drain (buffer ++ s) in
      if returned then (out, Return tt)
      else let '(out', c) := read_loop decoder1 buffer1 later failure in
           (out ++ out', c)
  end.

Definition decimal (n : N) : jsstring :=
  lit (NilZero.string_of_uint (N.to_uint n)).

(** [ragStream(body, onChunk)]; the callback acts on a state of the
    caller's. *)
Definition ragStream {S : Type} (fetch : Fetch (option ReadableStream))
    (b : RagBody) (onChunk : jsstring -> S -> S) (s : S) (w : World)
  : Completion unit * S * World :=
  let '(r, w1) := fetch {| call := PostRagStream b;
                           authorization := authHeaders w |} w in
  match r with
  | Throw m => (Throw m, s, w1)
  | Return res =>
      match (if ok res then body res else None) with
      | None =>
          (Throw (lit "Streaming failed: " ++ decimal (status res)
                  ++ lit " " ++ statusText res), s, w1)
      | Some stream =>
          let '(payloads, c) :=
            read_loop TextDecoder.init [] (chunks stream) (failure stream) in
          (c, fold_left (fun acc p => onChunk p acc) payloads s, w1)
      end
  end.

(** The payloads [ragStream] hands to its callback, in order, when the
    response body is [stream]. *)
Definition delivered (stream : ReadableStream) : list jsstring :=
  fst (read_loop TextDecoder.init [] (chunks stream) (failure stream)).

(** A history record, as [interface QueryItem] declares it. *)
Record QueryResponse := {
  response_text : option jsstring;
  context_chunks : option (list Source);
  generated_at : option jsstring
}.

Record QueryItem := {
  q_id : jsstring;
  query_text : jsstring;
  q_processing_time_ms : option Z;
  q_total_tokens : option Z;
  created_at : option jsstring;
  q_response : option QueryResponse
}.

Record History := {
  queries : option (list QueryItem)
}.

Definition queryHistory (fetch : Fetch (Body History)) (skip limit : Z)
    (sessionId : option jsstring) (w : World)
  : Completion (option History) * World :=
  let '(r, w1) :=
    fetch {| call := GetHistory skip limit (present sessionId);
             authorization := authHeaders w |} w in
  match r with
  | Throw m => (Throw m, w1)
  | Return res => (handleJsonResponse res, w1)
  end.

End Api.

(** ** [context/AuthContext.tsx] *)
Module AuthContext.

Definition setTok (t : option jsstring) (w : World) : World :=
  {| localStorage := localStorage w;
     auth := {| token := t; user := user (auth w) |};
     sent := sent w |}.

Definition setUser (u : option AuthUser) (w : World) : World :=
  {| localStorage := localStorage w;
     auth := {| token := token (auth w); user := u |};
     sent := sent w |}.

(** The provider's state when it mounts: [useState(getToken())],
    [useState(null)]. *)
Definition mount (w : World) : World :=
  setUser None (setTok (Api.getToken w) w).

Definition logout (w : World) : World :=
  setUser None (setTok None (Api.setToken None w)).

Definition login (fetch : Fetch (Body Api.LoginData))
    (email password : jsstring) (w : World) : bool * World :=
  match Api.login fetch email password w with
  | (Return res, w1) =>
      match present (Api.access_token res) with
      | Some t => (true, setUser (Api.login_user res) (setTok (Some t) w1))
      | None => (false, w1)
      end
  | (Throw _, w1) => (false, w1)
  end.

Definition signup (fetch : Fetch (Body Api.LoginData))
    (email username password : jsstring)
    (llm_provider llm_model : option jsstring) (w : World) : bool * World :=
  match Api.signup fetch email username password llm_provider llm_model w with
  | (Return res, w1) =>
      match present (Api.access_token res) with
      | Some t => (true, setUser (Api.login_user res) (setTok (Some t) w1))
      | None => (false, w1)
      end
  | (Throw _, w1) => (false, w1)
  end.

(** The wrapper that the provider's effect installs over [window.fetch]. *)
Definition intercept {B : Type} (orig : Fetch B) : Fetch B :=
  fun req w =>
    let '(r, w1) := orig req w in
    match r with
    | Return res =>
        if (status res =? 401)%N then (Return res, logout w1)
        else (Return res, w1)
    | Throw m => (Throw m, w1)
    end.

(** [window.fetch] while the provider is mounted. *)
Definition window_fetch {B : Type}
    (server : Request -> Completion (Response B)) : Fetch B :=
  intercept (native_fetch server).

End AuthContext.

(** ** [pages/Chat.tsx] *)
Module Chat.

Record Meta := {
  processing_time_ms : option Z;
  total_tokens : option Z;
  sources : option (list Api.Source)
}.

Inductive Role := user | assistant.

Record Message := {
  id : jsstring;
  role : Role;
  text : jsstring;
  createdAt : jsstring;
  meta : option Meta
}.

(** The state variables of the page, and [crashed]: not a state
    variable, it records that a state updater threw while React was
    rendering, upon which the page is unmounted (nothing catches the
    error), so that its other fields are no longer shown. *)
Record ChatState := {
  messages : list Message;
  query : jsstring;
  loading : bool;
  stream : bool;
  includeSources : bool;
  maxChunks : Z;
  temperature : Q;
  scoreThreshold : Q;
  maxTokens : Z;
  sessionId : option jsstring;
  hydrating : bool;
  crashed : bool
}.

Definition setMessages (f : list Message -> list Message) (st : ChatState)
  : ChatState :=
  {| messages := f (messages st); query := query st; loading := loading st;
     stream := stream st; includeSources := includeSources st;
     maxChunks := maxChunks st; temperature := temperature st;
     scoreThreshold := scoreThreshold st; maxTokens := maxTokens st;
     sessionId := sessionId st; hydrating := hydrating st;
     crashed := crashed st |}.

Definition setQuery (q : jsstring) (st : ChatState) : ChatState :=
  {| messages := messages st; query := q; loading := loading st;
     stream := stream st; includeSources := includeSources st;
     maxChunks := maxChunks st; temperature := temperature st;
     scoreThreshold := scoreThreshold st; maxTokens := maxTokens st;
     sessionId := sessionId st; hydrating := hydrating st;
     crashed := crashed st |}.

Definition setLoading (b : bool) (st : ChatState) : ChatState :=
  {| messages := messages st; query := query st; loading := b;
     stream := stream st; includeSources := includeSources st;
     maxChunks := maxChunks st; temperature := temperature st;
     scoreThreshold := scoreThreshold st; maxTokens := maxTokens st;
     sessionId := sessionId st; hydrating := hydrating st;
     crashed := crashed st |}.

Definition setStream (b : bool) (st : ChatState) : ChatState :=
  {| messages := messages st; query := query st; loading := loading st;
     stream := b; includeSources := includeSources st;
     maxChunks := maxChunks st; temperature := temperature st;
     scoreThreshold := scoreThreshold st; maxTokens := maxTokens st;
     sessionId := sessionId st; hydrating := hydrating st;
     crashed := crashed st |}.

Definition setHydrating (b : bool) (st : ChatState) : ChatState :=
  {| messages := messages st; query := query st; loading := loading st;
     stream := stream st; includeSources := includeSources st;
     maxChunks := maxChunks st; temperature := temperature st;
     scoreThreshold := scoreThreshold st; maxTokens := maxTokens st;
     sessionId := sessionId st; hydrating := b; crashed := crashed st |}.

(** The component's first render. *)
Definition initial : ChatState :=
  {| messages := []; query := []; loading := false; stream := true;
     includeSources := true; maxChunks := 5; temperature := 7 # 10;
     scoreThreshold := 3 # 10; maxTokens := 1000; sessionId := None;
     hydrating := true; crashed := false |}.

(** *** Hydration from history *)

(** [a || new Date().toISOString()]: the clock is read, and moves on,
    only when [a] is falsy.  [clock n] is the n-th reading. *)
Definition or_now (a : option jsstring) (clock : nat -> jsstring) (tick : nat)
  : jsstring * nat :=
  match present a with
  | Some s => (s, tick)
  | None => (clock tick, S tick)
  end.

(** The body of [for (const q of items)]. *)
Definition hydrate_item (clock : nat -> jsstring) (tick : nat)
    (q : Api.QueryItem) : list Message * nat :=
  let '(uAt, tick1) := or_now (Api.created_at q) clock tick in
  let u := {| id := Api.q_id q ++ lit ":u"; role := user;
              text := Api.query_text q; createdAt := uAt; meta := None |} in
  match Api.q_response q with
  | Some r =>
      match present (Api.response_text r) with
      | Some answer =>
          let '(aAt, tick2) :=
            match present (Api.generated_at r) with
            | Some g => (g, tick1)
            | None => or_now (Api.created_at q) clock tick1
            end in
          ([u;
            {| id := Api.q_id q ++ lit ":a"; role := assistant;
               text := answer; createdAt := aAt;
               meta := Some {| processing_time_ms := Api.q_processing_time_ms q;
                               total_tokens := Api.q_total_tokens q;
                               sources := Api.context_chunks r |} |}],
           tick2)
      | None => ([u], tick1)
      end
  | None => ([u], tick1)
  end.

Fixpoint hydrate_loop (clock : nat -> jsstring) (tick : nat)
    (items : list Api.QueryItem) : list Message :=
  match items with
  | [] => []
  | q :: later =>
      let '(pushed, tick1) := hydrate_item clock tick q in
      pushed ++ hydrate_loop clock tick1 later
  end.

(** From the fetched history to the [hydrated] array. *)
Definition hydrate (clock : nat -> jsstring) (hist : option Api.History)
  : list Message :=
  let items :=
    rev (match hist with
         | Some h => match Api.queries h with Some qs => qs | None => [] end
         | None => []
         end) in
  hydrate_loop clock 0 items.

(** The hydration effect, run when [sessionId] is set. *)
Definition hydration (fetch : Fetch (Body Api.History))
    (clock : nat -> jsstring) (st : ChatState) (w : World)
  : ChatState * World :=
  match present (sessionId st) with
  | None => (st, w)
  | Some sid =>
      let st1 := setHydrating true st in
      let '(r, w1) := Api.queryHistory fetch 0 50 (Some sid) w in
      let st2 :=
        match r with
        | Return hist =>
            match hydrate clock hist with
            | [] => st1
            | hydrated => setMessages (fun _ => hydrated) st1
            end
        | Throw _ => st1
        end in
      (setHydrating false st2, w1)
  end.

(** *** Sending *)

(** What one [send] reads from its environment: two fresh UUIDs, two
    clock readings, and the rounded time between the two
    [performance.now()] calls. *)
Record SendEnv := {
  userMsgId : jsstring;
  assistantMsgId : jsstring;
  userCreatedAt : jsstring;
  assistantCreatedAt : jsstring;
  ms : Z
}.

Definition disableSubmit (st : ChatState) : bool :=
  negb (truthy (trim (query st))) || loading st.

(** [prev.map((msg) => msg.id === assistantMsg.id ? f(msg) : msg)]. *)
Definition mapAssistant (aid : jsstring) (f : Message -> Message)
    (prev : list Message) : list Message :=
  map (fun msg => if JS.eqb (id msg) aid then f msg else msg) prev.

Definition emptyMeta : Meta :=
  {| processing_time_ms := None; total_tokens := None; sources := None |}.

(** [send] up to its first [await]: [None] when the guard returns,
    otherwise the state after the four setters and the request body. *)
Definition begin (env : SendEnv) (st : ChatState)
  : option (ChatState * RagBody) :=
  if disableSubmit st then None
  else
    let userMsg := {| id := userMsgId env; role := user; text := query st;
                      createdAt := userCreatedAt env; meta := None |} in
    let assistantMsg := {| id := assistantMsgId env; role := assistant;
                           text := []; createdAt := assistantCreatedAt env;
                           meta := Some emptyMeta |} in
    let st1 := setLoading true st in
    let st2 := setMessages (fun m => m ++ [userMsg; assistantMsg]) st1 in
    let st3 := setQuery [] st2 in
    Some (st3,
          {| rb_query := text userMsg; max_chunks := maxChunks st;
             score_threshold := scoreThreshold st;
             rb_temperature := temperature st; max_tokens := maxTokens st;
             include_sources := includeSources st;
             session_id := present (sessionId st) |}).

(** The callback given to [ragStream]. *)
Definition appendChunk (aid : jsstring) (chunk : jsstring) (st : ChatState)
  : ChatState :=
  setMessages
    (mapAssistant aid (fun msg =>
       {| id := id msg; role := role msg; text := text msg ++ chunk;
          createdAt := createdAt msg; meta := meta msg |})) st.

(** The update made when [ragQuery] resolves. *)
Definition fillAnswer (aid : jsstring) (res : Api.RagResult) (st : ChatState)
  : ChatState :=
  setMessages
    (mapAssistant aid (fun msg =>
       {| id := id msg; role := role msg;
          text := or_else (Api.response res) [];
          createdAt := createdAt msg;
          meta := Some {| processing_time_ms := Api.res_processing_time_ms res;
                          total_tokens := Api.res_total_tokens res;
                          sources := Api.context_documents res |} |})) st.

(** The same update when the answer is [null].  [res.response] is read
    inside the updater, which React runs while rendering, outside the
    [try] of [send]: the read throws as soon as the updater meets a
    message with the assistant id, and the page crashes. *)
Definition fillNull (aid : jsstring) (st : ChatState) : ChatState :=
  if existsb (fun msg => JS.eqb (id msg) aid) (messages st)
  then {| messages := messages st; query := query st;
          loading := loading st; stream := stream st;
          includeSources := includeSources st; maxChunks := maxChunks st;
          temperature := temperature st;
          scoreThreshold := scoreThreshold st; maxTokens := maxTokens st;
          sessionId := sessionId st; hydrating := hydrating st;
          crashed := true |}
  else st.

(** The body of the [try] up to the elapsed-time update: the streaming
    or the single-response exchange, chosen by the [stream] flag read at
    the start of [send].  A [null] answer makes nothing throw inside
    [send]: the function goes on as after any answer. *)
Definition exchange (streaming : bool)
    (fetchStream : Fetch (option ReadableStream))
    (fetchJson : Fetch (Body Api.RagResult))
    (aid : jsstring) (payload : RagBody) (st : ChatState) (w : World)
  : Completion unit * ChatState * World :=
  if streaming then
    Api.ragStream fetchStream payload (appendChunk aid) st w
  else
    match Api.ragQuery fetchJson payload w with
    | (Return (Some res), w1) => (Return tt, fillAnswer aid res st, w1)
    | (Return None, w1) => (Return tt, fillNull aid st, w1)
    | (Throw m, w1) => (Throw m, st, w1)
    end.

(** [(msg.meta?.processing_time_ms ?? 0) || ms]. *)
Definition reportedOr (m : option Meta) (ms : Z) : Z :=
  match m with
  | Some {| processing_time_ms := Some t |} =>
      if (t =? 0)%Z then ms else t
  | _ => ms
  end.

(** The rest of the [try], or the [catch]. *)
Definition settle (env : SendEnv) (outcome : Completion unit)
    (st : ChatState) : ChatState :=
  match outcome with
  | Return _ =>
      setMessages
        (mapAssistant (assistantMsgId env) (fun msg =>
           let m := match meta msg with Some m => m | None => emptyMeta end in
           {| id := id msg; role := role msg; text := text msg;
              createdAt := createdAt msg;
              meta := Some {| processing_time_ms :=
                                Some (reportedOr (meta msg) (ms env));
                              total_tokens := total_tokens m;
                              sources := sources m |} |})) st
  | Throw m =>
      setMessages
        (mapAssistant (assistantMsgId env) (fun msg =>
           {| id := id msg; role := role msg;
              text := lit "Error: "
                        ++ (if truthy m then m else lit "Failed to generate");
              createdAt := createdAt msg; meta := meta msg |})) st
  end.

Definition send (env : SendEnv)
    (fetchStream : Fetch (option ReadableStream))
    (fetchJson : Fetch (Body Api.RagResult))
    (st : ChatState) (w : World) : ChatState * World :=
  match begin env st with
  | None => (st, w)
  | Some (st3, payload) =>
      let '(outcome, st4, w1) :=
        exchange (stream st) fetchStream fetchJson (assistantMsgId env)
                 payload st3 w in
      (setLoading false (settle env outcome st4), w1)
  end.

Definition clear (st : ChatState) : ChatState := setMessages (fun _ => []) st.

End Chat.

(** ** Vocabulary of the specification and sample inputs *)
Module Spec.

(** Neither the stored token, nor the session token, nor the user is
    set. *)
Definition logged_out (w : World) : Prop :=
  Api.getToken w = None /\ token (auth w) = None /\ user (auth w) = None.

(** The storage and the provider's state are those of [w]. *)
Definition same_session (w w' : World) : Prop :=
  localStorage w' = localStorage w /\ auth w' = auth w.

(** The request [login] sends. *)
Definition loginRequest (email password : jsstring) : Request :=
  {| call := PostLogin email password; authorization := None |}.

(** The record carries a response payload. *)
Definition carries_response (q : Api.QueryItem) : bool :=
  match Api.q_response q with Some _ => true | None => false end.

(** The record carries a response payload whose text is not empty. *)
Definition has_answer (q : Api.QueryItem) : bool :=
  match Api.q_response q with
  | Some r =>
      match present (Api.response_text r) with
      | Some _ => true
      | None => false
      end
  | None => false
  end.

(** Every record has a creation time. *)
Definition dated (q : Api.QueryItem) : bool :=
  match present (Api.created_at q) with
  | Some _ => true
  | None => false
  end.

(** [m] is the user message of record [q]. *)
Definition user_message_of (q : Api.QueryItem) (m : Chat.Message) : Prop :=
  Chat.id m = Api.q_id q ++ lit ":u" /\ Chat.role m = Chat.user /\
  Chat.text m = Api.query_text q /\ Chat.meta m = None /\
  (forall c, present (Api.created_at q) = Some c -> Chat.createdAt m = c).

(** [m] is the assistant message of record [q]. *)
Definition assistant_message_of (q : Api.QueryItem) (m : Chat.Message)
  : Prop :=
  exists r,
    Api.q_response q = Some r /\
    Chat.id m = Api.q_id q ++ lit ":a" /\ Chat.role m = Chat.assistant /\
    present (Api.response_text r) = Some (Chat.text m) /\
    (forall g, present (Api.generated_at r) = Some g ->
               Chat.createdAt m = g) /\
    Chat.meta m =
      Some {| Chat.processing_time_ms := Api.q_processing_time_ms q;
              Chat.total_tokens := Api.q_total_tokens q;
              Chat.sources := Api.context_chunks r |}.

(** The messages one record contributes. *)
Definition contribution (q : Api.QueryItem) (group : list Chat.Message)
  : Prop :=
  match group with
  | [u] => has_answer q = false /\ user_message_of q u
  | [u; a] =>
      has_answer q = true /\ user_message_of q u /\ assistant_message_of q a
  | _ => False
  end.

(** The bytes of one line of ASCII text followed by a blank line. *)
Definition frame (line : string) : list byte :=
  list_byte_of_string line ++ [x0a; x0a].

Definition history (records : list Api.QueryItem) : option Api.History :=
  Some {| Api.queries := Some records |}.

(** A signed-in tab, and answers of the authentication endpoint. *)
Definition alice : AuthUser :=
  {| user_id := lit "u1"; email := lit "a@b.com"; username := lit "alice";
     role := None; llm_provider := None; llm_model := None |}.

Definition signed_in : World :=
  {| localStorage := Some (Some (lit "old"));
     auth := {| token := Some (lit "old"); user := Some alice |};
     sent := [] |}.

Definition signed_out : World :=
  {| localStorage := Some None;
     auth := {| token := None; user := None |};
     sent := [] |}.

Definition no_data : Api.LoginData :=
  {| Api.access_token := None; Api.login_user := None |}.

Definition unauthorized : Response (Body Api.LoginData) :=
  {| status := 401; statusText := lit "Unauthorized";
     body := JsonObject (Some (lit "Invalid credentials")) no_data |}.

Definition granted : Response (Body Api.LoginData) :=
  {| status := 200; statusText := lit "OK";
     body := JsonObject None {| Api.access_token := Some (lit "tok1");
                                Api.login_user := Some alice |} |}.

Definition broken : Response (Body Api.LoginData) :=
  {| status := 500; statusText := lit "Internal Server Error";
     body := Malformed (lit "Unexpected token < in JSON") |}.

Definition empty_answer : Response (Body Api.LoginData) :=
  {| status := 200; statusText := lit "OK"; body := JsonObject None no_data |}.


(** A chat page with a question typed in, the environment of one send,
    and the page once that send is in flight. *)
Definition asking : Chat.ChatState :=
  Chat.setQuery (lit "What is RAG?")
    (Chat.setHydrating false Chat.initial).

Definition env1 : Chat.SendEnv :=
  {| Chat.userMsgId := lit "7d0c"; Chat.assistantMsgId := lit "a41f";
     Chat.userCreatedAt := lit "2025-01-01T10:00:00.000Z";
     Chat.assistantCreatedAt := lit "2025-01-01T10:00:00.001Z";
     Chat.ms := 17 |}.

Definition in_flight : Chat.ChatState :=
  match Chat.begin env1 asking with
  | Some (st, _) => st
  | None => asking
  end.

(** The last message of a list, where [send] puts its placeholder. *)
Definition placeholder (l : list Chat.Message) : option Chat.Message :=
  hd_error (rev l).

(** The time an answer of the query endpoint reports, when it reports
    one that is not zero. *)
Definition reported (res : Api.RagResult) : option Z :=
  match Api.res_processing_time_ms res with
  | Some t => if (t =? 0)%Z then None else Some t
  | None => None
  end.

(** Answers of the query endpoint: one that took 150 ms, one that
    reports a time of zero; and a streamed answer. *)
Definition timed : Response (Body Api.RagResult) :=
  {| status := 200; statusText := lit "OK";
     body := JsonObject None
               {| Api.response := Some (lit "Retrieval.");
                  Api.res_processing_time_ms := Some 150%Z;
                  Api.res_total_tokens := Some 42%Z;
                  Api.context_documents :=
                    Some [Api.Attribution (lit "doc1")] |} |}.

Definition instant : Response (Body Api.RagResult) :=
  {| status := 200; statusText := lit "OK";
     body := JsonObject None
               {| Api.response := Some (lit "Retrieval.");
                  Api.res_processing_time_ms := Some 0%Z;
                  Api.res_total_tokens := Some 42%Z;
                  Api.context_documents := None |} |}.

Definition streamed : Response (option ReadableStream) :=
  {| status := 200; statusText := lit "OK";
     body := Some {| chunks := [frame "data: foo"; frame "data: bar";
                                frame "data: [DONE]"];
                     failure := None |} |}.

(** The processing time held by the placeholder's metadata. *)
Definition recorded_time (st : Chat.ChatState) : option Z :=
  match placeholder (Chat.messages st) with
  | Some {| Chat.meta := Some m |} => Chat.processing_time_ms m
  | _ => None
  end.

(** A message without its creation time. *)
Definition undated (m : Chat.Message)
  : jsstring * Chat.Role * jsstring * option Chat.Meta :=
  (Chat.id m, Chat.role m, Chat.text m, Chat.meta m).

Definition suffix (r : Chat.Role) : jsstring :=
  match r with
  | Chat.user => lit ":u"
  | Chat.assistant => lit ":a"
  end.

(** History records: answered, answered with an empty text, and
    without a creation time. *)
Definition answered : Api.QueryItem :=
  {| Api.q_id := lit "q1"; Api.query_text := lit "What is RAG?";
     Api.q_processing_time_ms := Some 150%Z; Api.q_total_tokens := Some 42%Z;
     Api.created_at := Some (lit "2025-01-01T10:00:00Z");
     Api.q_response :=
       Some {| Api.response_text := Some (lit "Retrieval.");
               Api.context_chunks := Some [Api.Attribution (lit "c1")];
               Api.generated_at := Some (lit "2025-01-01T10:00:01Z") |} |}.

Definition silent : Api.QueryItem :=
  {| Api.q_id := lit "q2"; Api.query_text := lit "And then?";
     Api.q_processing_time_ms := None; Api.q_total_tokens := None;
     Api.created_at := Some (lit "2025-01-01T10:05:00Z");
     Api.q_response :=
       Some {| Api.response_text := Some [];
               Api.context_chunks := None;
               Api.generated_at := Some (lit "2025-01-01T10:05:01Z") |} |}.

Definition timeless : Api.QueryItem :=
  {| Api.q_id := lit "q3"; Api.query_text := lit "Hello";
     Api.q_processing_time_ms := None; Api.q_total_tokens := None;
     Api.created_at := None; Api.q_response := None |}.

End Spec.

(** ** Session identity: the first effect of [pages/Chat.tsx] *)
Module ChatSession.

(** [sessionStorage], reduced to the key ["chat_session_id"]: the value
    held, whether reading is refused ([getItem] throws) and whether
    writing is refused ([setItem] throws). *)
Record TabStorage := {
  stored : option jsstring;
  denied : bool;
  full : bool
}.

Definition setSessionId (sid : option jsstring) (st : Chat.ChatState)
  : Chat.ChatState :=
  {| Chat.messages := Chat.messages st; Chat.query := Chat.query st;
     Chat.loading := Chat.loading st; Chat.stream := Chat.stream st;
     Chat.includeSources := Chat.includeSources st;
     Chat.maxChunks := Chat.maxChunks st;
     Chat.temperature := Chat.temperature st;
     Chat.scoreThreshold := Chat.scoreThreshold st;
     Chat.maxTokens := Chat.maxTokens st;
     Chat.sessionId := sid; Chat.hydrating := Chat.hydrating st;
     Chat.crashed := Chat.crashed st |}.

(** The effect; [uuid n] is what the n-th call of
    [crypto.randomUUID()] returns.  When [setItem] throws, the id made
    in the [try] is dropped and the [catch] makes another. *)
Definition initSession (uuid : nat -> jsstring) (st : Chat.ChatState)
    (ss : TabStorage) : Chat.ChatState * TabStorage :=
  if denied ss then (setSessionId (Some (uuid 0)) st, ss)
  else
    match present (stored ss) with
    | Some sid => (setSessionId (Some sid) st, ss)
    | None =>
        if full ss then (setSessionId (Some (uuid 1)) st, ss)
        else (setSessionId (Some (uuid 0)) st,
              {| stored := Some (uuid 0); denied := denied ss;
                 full := full ss |})
    end.

End ChatSession.

(** ** The route guard and a page reload ([App.tsx]) *)
Module App.

Inductive Rendered := Children | NavigateLogin.

(** [RequireAuth]: [if (!token) return <Navigate to="/login" replace />]. *)
Definition RequireAuth (w : World) : Rendered :=
  match present (token (auth w)) with
  | Some _ => Children
  | None => NavigateLogin
  end.

(** A reload of the tab: the provider mounts again over the same
    storage. *)
Definition reload (w : World) : World := AuthContext.mount w.

End App.

(** ** [pages/Auth.tsx] *)
Module AuthPage.

Inductive Mode := login_mode | signup_mode.

Record PageState := {
  mode : Mode;
  loading : bool;
  error : jsstring;
  provider : jsstring;
  model : jsstring;
  location : jsstring
}.

Definition setLoading (b : bool) (st : PageState) : PageState :=
  {| mode := mode st; loading := b; error := error st;
     provider := provider st; model := model st; location := location st |}.

Definition setError (e : jsstring) (st : PageState) : PageState :=
  {| mode := mode st; loading := loading st; error := e;
     provider := provider st; model := model st; location := location st |}.

Definition nav (path : jsstring) (st : PageState) : PageState :=
  {| mode := mode st; loading := loading st; error := error st;
     provider := provider st; model := model st; location := path |}.

(** The body of the [try]: the call, then [throw] on a false answer. *)
Definition attempt (fetch : Fetch (Body Api.LoginData))
    (email username password : jsstring) (st : PageState) (w : World)
  : Completion unit * World :=
  match mode st with
  | login_mode =>
      let '(ok, w1) := AuthContext.login fetch email password w in
      if ok then (Return tt, w1)
      else (Throw (lit "Invalid credentials"), w1)
  | signup_mode =>
      let '(ok, w1) :=
        AuthContext.signup fetch email username password
          (present (Some (provider st))) (present (Some (model st))) w in
      if ok then (Return tt, w1)
      else (Throw (lit "Signup failed"), w1)
  end.

(** [onSubmit], with the three fields read from the form. *)
Definition onSubmit (fetch : Fetch (Body Api.LoginData))
    (email username password : jsstring) (st : PageState) (w : World)
  : PageState * World :=
  let st1 := setError [] (setLoading true st) in
  let '(c, w1) := attempt fetch email username password st w in
  let st2 :=
    match c with
    | Return _ => nav (lit "/chat") st1
    | Throw m =>
        setError (if truthy m then m else lit "Authentication error") st1
    end in
  (setLoading false st2, w1).

End AuthPage.

(** ** [pages/History.tsx] *)
Module HistoryPage.

Record QueryItem := {
  id : jsstring;
  query_text : jsstring;
  status : option jsstring;
  processing_time_ms : option Z;
  retrieved_chunks_count : option Z;
  llm_provider : option jsstring;
  llm_model : option jsstring;
  total_tokens : option Z;
  created_at : option jsstring;
  session_id : option jsstring;
  response : option Api.QueryResponse
}.

(** [Set.prototype.add]: a set keeps its values in insertion order. *)
Definition add (s : list jsstring) (v : jsstring) : list jsstring :=
  if existsb (JS.eqb v) s then s else s ++ [v].

(** The [sessions] memo: [Array.from] of the set of session ids. *)
Definition sessions (items : list QueryItem) : list jsstring :=
  fold_left
    (fun s q =>
       match present (session_id q) with
       | Some v => add s v
       | None => s
       end)
    items [].

End HistoryPage.

(** ** The wire format of the streaming endpoint *)
Module Wire.

(** One event as the server writes it: [data: <text>] and a blank
    line. *)
Definition event (payload : jsstring) : jsstring :=
  lit "data: " ++ payload ++ Api.BLANK_LINE.

(** A text that survives the framing: not empty, no white space at
    either end, no blank line inside, and not the sentinel. *)
Definition plain (payload : jsstring) : bool :=
  truthy payload && JS.eqb (trim payload) payload
  && match indexOf payload Api.BLANK_LINE with
     | None => true
     | Some _ => false
     end
  && negb (JS.eqb payload Api.DONE).

(** ASCII text as bytes. *)
Definition ascii_bytes (s : jsstring) : list byte :=
  map (fun c => match Byte.of_N c with Some b => b | None => x00 end) s.

Definition is_ascii (s : jsstring) : bool :=
  forallb (fun c => (c <? 128)%N) s.

End Wire.

(** ** Further vocabulary *)
Module Terms.

(** The messages of a page agree, position by position, on id, role
    and creation time, and differ at most where the id is [aid]. *)
Definition touched_only (aid : jsstring) (l l' : list Chat.Message) : Prop :=
  Forall2
    (fun m m' =>
       Chat.id m' = Chat.id m /\ Chat.role m' = Chat.role m /\
       Chat.createdAt m' = Chat.createdAt m /\
       (Chat.id m <> aid -> m' = m))
    l l'.

(** The first truthy string of a list, or the fallback. *)
Fixpoint first_truthy (l : list (option jsstring)) (fallback : jsstring)
  : jsstring :=
  match l with
  | [] => fallback
  | a :: rest =>
      match present a with
      | Some s => s
      | None => first_truthy rest fallback
      end
  end.

(** The request a send makes from page [st] in world [w]: the typed
    text and the settings of the page, to the streaming endpoint when
    [stream] is set, with the stored token as bearer. *)
Definition payloadOf (st : Chat.ChatState) : RagBody :=
  {| rb_query := Chat.query st; max_chunks := Chat.maxChunks st;
     score_threshold := Chat.scoreThreshold st;
     rb_temperature := Chat.temperature st;
     max_tokens := Chat.maxTokens st;
     include_sources := Chat.includeSources st;
     session_id := present (Chat.sessionId st) |}.

Definition sendRequest (st : Chat.ChatState) (w : World) : Request :=
  {| call := if Chat.stream st then PostRagStream (payloadOf st)
             else PostRag (payloadOf st);
     authorization :=
       match present (Api.getToken w) with
       | Some t => Some (lit "Bearer " ++ t)
       | None => None
       end |}.

(** The placeholder shows the error text for [msg] and holds the empty
    metadata it was created with. *)
Definition shows_error (st : Chat.ChatState) (msg : jsstring) : Prop :=
  exists a,
    Spec.placeholder (Chat.messages st) = Some a
    /\ Chat.text a = lit "Error: " ++ msg
    /\ Chat.meta a = Some Chat.emptyMeta.

(** Answers of the query endpoints that report a failure. *)
Definition stream_down : Response (option ReadableStream) :=
  {| status := 500; statusText := lit "Internal Server Error";
     body := None |}.

Definition query_refused : Response (Body Api.RagResult) :=
  {| status := 422; statusText := lit "Unprocessable Entity";
     body := JsonObject (Some (lit "Query too long"))
               {| Api.response := None; Api.res_processing_time_ms := None;
                  Api.res_total_tokens := None;
                  Api.context_documents := None |} |}.

(** A streamed answer whose connection breaks after one event. *)
Definition cut_off : Response (option ReadableStream) :=
  {| status := 200; statusText := lit "OK";
     body := Some {| chunks := [Spec.frame "data: foo"];
                     failure := Some (lit "network error") |} |}.

(** A record of the history page, made in session [sid]. *)
Definition visit (sid : option jsstring) : HistoryPage.QueryItem :=
  {| HistoryPage.id := lit "q"; HistoryPage.query_text := lit "Hello";
     HistoryPage.status := Some (lit "completed");
     HistoryPage.processing_time_ms := None;
     HistoryPage.retrieved_chunks_count := None;
     HistoryPage.llm_provider := None; HistoryPage.llm_model := None;
     HistoryPage.total_tokens := None; HistoryPage.created_at := None;
     HistoryPage.session_id := sid; HistoryPage.response := None |}.


Definition html_answer : Response (Body Api.RagResult) :=
  {| status := 502; statusText := lit "Bad Gateway";
     body := Malformed (lit "Unexpected token < in JSON at position 0") |}.

(** An answer without success whose body is [null]. *)
Definition null_refusal : Response (Body Api.RagResult) :=
  {| status := 503; statusText := lit "Service Unavailable";
     body := JsonNull |}.

(** A second send on a page that already holds an exchange. *)
Definition env2 : Chat.SendEnv :=
  {| Chat.userMsgId := lit "c001"; Chat.assistantMsgId := lit "c002";
     Chat.userCreatedAt := lit "2025-01-01T10:01:00.000Z";
     Chat.assistantCreatedAt := lit "2025-01-01T10:01:00.001Z";
     Chat.ms := 23 |}.

Definition talked : Chat.ChatState :=
  Chat.setQuery (lit "  And then? ") (Chat.setLoading false Spec.in_flight).

(** A tab whose storage cannot be used. *)
Definition no_storage : World :=
  {| localStorage := None;
     auth := {| token := None; user := None |};
     sent := [] |}.

End Terms.

(** * Properties *)

(** ** Strings *)
Section StringFacts.

Implicit Types s t p : jsstring.

Lemma startsWith_length s p :
  startsWith s p = true -> length p <= length s.
Proof.
  revert s; induction p as [|x p IH]; intros [|c s]; simpl; intros H;
    try lia; try discriminate.
  apply andb_prop in H as [_ H]. apply IH in H. lia.
Qed.

Lemma startsWith_app s t p :
  startsWith s p = true -> startsWith (s ++ t) p = true.
Proof.
  revert s; induction p as [|x p IH]; intros [|c s]; simpl; auto;
    try discriminate.
  intros H; apply andb_prop in H as [H1 H2].
  rewrite H1, (IH _ H2). reflexivity.
Qed.

Lemma startsWith_app_false s t p :
  startsWith s p = false -> length p <= length s ->
  startsWith (s ++ t) p = false.
Proof.
  revert s; induction p as [|x p IH]; intros [|c s]; simpl; intros H L;
    try discriminate; try lia.
  destruct (c =? x)%N; simpl in *; auto.
  apply IH; [assumption | lia].
Qed.

Lemma indexOf_length s p i :
  indexOf s p = Some i -> i + length p <= length s.
Proof.
  revert i; induction s as [|c s IH]; intros i; cbn [indexOf].
  - destruct (startsWith [] p) eqn:E; [|discriminate].
    intros [= <-]. apply startsWith_length in E. simpl in *; lia.
  - destruct (startsWith (c :: s) p) eqn:E.
    + intros [= <-]. apply startsWith_length in E. simpl in *; lia.
    + destruct (indexOf s p) as [j|]; simpl; [|discriminate].
      intros [= <-]. specialize (IH j eq_refl). simpl; lia.
Qed.

(** The leftmost match does not move when text is appended. *)
Lemma indexOf_app s t p i :
  indexOf s p = Some i -> indexOf (s ++ t) p = Some i.
Proof.
  revert i; induction s as [|c s IH]; intros i; cbn [indexOf].
  - destruct (startsWith [] p) eqn:E; [|discriminate].
    intros [= <-]. destruct p; [|discriminate]. destruct t; reflexivity.
  - destruct (startsWith (c :: s) p) eqn:E.
    + intros [= <-]. simpl app. cbn [indexOf].
      change (c :: s ++ t) with ((c :: s) ++ t).
      rewrite (startsWith_app _ t _ E). reflexivity.
    + destruct (indexOf s p) as [j|] eqn:Ej; simpl; [|discriminate].
      intros [= <-]. simpl app. cbn [indexOf].
      change (c :: s ++ t) with ((c :: s) ++ t).
      rewrite startsWith_app_false; auto.
      * rewrite (IH j eq_refl). reflexivity.
      * apply indexOf_length in Ej. simpl; lia.
Qed.

Lemma jseqb_eq s t : JS.eqb s t = true <-> s = t.
Proof.
  revert t; induction s as [|x s IH]; intros [|y t]; simpl;
    try (split; [discriminate | discriminate]); try tauto.
  rewrite andb_true_iff, N.eqb_eq, IH. split.
  - intros [-> ->]; reflexivity.
  - intros [= -> ->]; auto.
Qed.

Lemma trimStart_all_space s :
  forallb isWhiteSpace s = true -> trimStart s = [].
Proof.
  induction s as [|c s IH]; simpl; auto.
  intros H; apply andb_prop in H as [-> H]. auto.
Qed.

(** Trimming a string made of white space only leaves nothing. *)
Lemma trim_all_space s :
  forallb isWhiteSpace s = true -> trim s = [].
Proof.
  intros H. unfold trim, trimEnd. rewrite (trimStart_all_space _ H).
  reflexivity.
Qed.

(** A string that neither starts nor ends with white space is its own
    trimmed form. *)
Lemma trim_id s :
  (forall c, hd_error s = Some c -> isWhiteSpace c = false) ->
  (forall c, hd_error (rev s) = Some c -> isWhiteSpace c = false) ->
  trim s = s.
Proof.
  intros Hh Hl. unfold trim, trimEnd.
  assert (E : forall u, (forall c, hd_error u = Some c ->
                                   isWhiteSpace c = false) ->
                        trimStart u = u).
  { intros [|c u] H; simpl; auto. rewrite (H c eq_refl). reflexivity. }
  rewrite (E s Hh), (E (rev s) Hl). apply rev_involutive.
Qed.

End StringFacts.

(** ** Trimming *)
Section TrimFacts.

Implicit Types s t : jsstring.

(** What [trimStart] removes is white space, and what it keeps does not
    start with white space. *)
Lemma trimStart_split s :
  exists pre, s = pre ++ trimStart s /\ forallb isWhiteSpace pre = true.
Proof.
  induction s as [|c s (pre & E & W)]; simpl.
  - exists []. split; reflexivity.
  - destruct (isWhiteSpace c) eqn:Hc.
    + exists (c :: pre). simpl. rewrite Hc, W. split; [f_equal; exact E|].
      reflexivity.
    + exists []. split; reflexivity.
Qed.

Lemma trimStart_hd s c :
  hd_error (trimStart s) = Some c -> isWhiteSpace c = false.
Proof.
  induction s as [|x s IH]; simpl; [discriminate|].
  destruct (isWhiteSpace x) eqn:Hx; [exact IH|].
  simpl. intros [= <-]. exact Hx.
Qed.

Lemma trim_last s c :
  hd_error (rev (trim s)) = Some c -> isWhiteSpace c = false.
Proof.
  unfold trim, trimEnd. rewrite rev_involutive. apply trimStart_hd.
Qed.

Lemma trim_hd s c :
  hd_error (trim s) = Some c -> isWhiteSpace c = false.
Proof.
  unfold trim, trimEnd.
  destruct (trimStart_split (rev (trimStart s))) as (pre & E & _).
  assert (T : trimStart s = rev (trimStart (rev (trimStart s))) ++ rev pre).
  { rewrite <- rev_app_distr, <- E, rev_involutive. reflexivity. }
  destruct (rev (trimStart (rev (trimStart s)))) as [|x u] eqn:U;
    [discriminate|].
  simpl. intros [= <-]. apply (trimStart_hd s). rewrite T. reflexivity.
Qed.

(** Trimming twice is trimming once. *)
Lemma trim_idempotent s : trim (trim s) = trim s.
Proof. apply trim_id; [apply trim_hd | apply trim_last]. Qed.

Lemma trim_fixed_ends s :
  trim s = s ->
  (forall c, hd_error s = Some c -> isWhiteSpace c = false)
  /\ (forall c, hd_error (rev s) = Some c -> isWhiteSpace c = false).
Proof.
  intros E. split; intros c H; rewrite <- E in H;
    [exact (trim_hd _ _ H) | exact (trim_last _ _ H)].
Qed.

End TrimFacts.

(** ** The decoder keeps its place between chunks *)
Section DecoderFacts.

Lemma decode_app (d : TextDecoder.t) (a b : list byte) :
  TextDecoder.decode d (a ++ b) =
  let '(d1, s1) := TextDecoder.decode d a in
  let '(d2, s2) := TextDecoder.decode d1 b in
  (d2, s1 ++ s2).
Proof.
  revert d; induction a as [|x a IH]; intros d; simpl.
  - destruct (TextDecoder.decode d b); reflexivity.
  - destruct (TextDecoder.step d x) as [d1 s1].
    rewrite IH.
    destruct (TextDecoder.decode d1 a) as [d2 s2].
    destruct (TextDecoder.decode d2 b) as [d3 s3].
    rewrite app_assoc. reflexivity.
Qed.

(** The euro sign in three bytes, an emoji in four bytes (a surrogate
    pair), a lead byte followed by a byte that cannot continue it, and a
    byte order mark at the start of the stream. *)
Example decode_samples :
  snd (TextDecoder.decode TextDecoder.init [xe2; x82; xac]) = [8364%N]
  /\ snd (TextDecoder.decode TextDecoder.init [xf0; x9f; x98; x80])
     = [55357%N; 56832%N]
  /\ snd (TextDecoder.decode TextDecoder.init [xc3; x28]) = [65533%N; 40%N]
  /\ snd (TextDecoder.decode TextDecoder.init [xef; xbb; xbf; x41])
     = [65%N].
Proof. repeat split. Qed.

(** A character cut in two: the first call yields nothing and the
    second call completes it. *)
Example decode_split_character :
  TextDecoder.decode TextDecoder.init [xe2; x82]
  = ({| TextDecoder.code_point := 130; TextDecoder.bytes_seen := 1;
        TextDecoder.bytes_needed := 2; TextDecoder.lower := 128;
        TextDecoder.upper := 191; TextDecoder.bom_seen := false |}, [])
  /\ snd (TextDecoder.decode
            (fst (TextDecoder.decode TextDecoder.init [xe2; x82])) [xac])
     = [8364%N].
Proof. split; reflexivity. Qed.

End DecoderFacts.

(** ** The frame loop *)
Section FrameLoop.

Import Api.

(** The loop, unfolded once. *)
Lemma drain_unfold (buffer : jsstring) :
  drain buffer =
  match indexOf buffer BLANK_LINE with
  | None => ([], buffer, false)
  | Some idx =>
      let raw := trim (sliceTo buffer idx) in
      let rest := sliceFrom buffer (idx + 2) in
      if negb (truthy raw) then drain rest
      else if startsWith raw DATA_MARKER then
        let payload := trim (sliceFrom raw 5) in
        if JS.eqb payload DONE then ([], rest, true)
        else let '(out, b, ret) := drain rest in (payload :: out, b, ret)
      else let '(out, b, ret) := drain rest in (raw :: out, b, ret)
  end.
Proof.
  rewrite drain_equation_1. unfold drain_unfold_clause_1.
  destruct (inspect (indexOf buffer BLANK_LINE)) as [[idx|] e];
    rewrite e; reflexivity.
Qed.

(** Appending text to a buffer does not disturb the frames already
    complete in it: they are delivered first, and the loop goes on with
    what was left over followed by the new text. *)
Lemma drain_app (b t : jsstring) :
  drain (b ++ t) =
  let '(out, rem, ret) := drain b in
  if ret then (out, rem ++ t, true)
  else let '(out2, rem2, ret2) := drain (rem ++ t) in
       (out ++ out2, rem2, ret2).
Proof.
  remember (length b) as n eqn:Hn. revert b Hn.
  induction n as [n IH] using lt_wf_ind. intros b ->.
  rewrite (drain_unfold b).
  destruct (indexOf b BLANK_LINE) as [idx|] eqn:Hidx.
  - pose proof (indexOf_length _ _ _ Hidx) as L. simpl in L.
    rewrite (drain_unfold (b ++ t)), (indexOf_app _ t _ _ Hidx).
    unfold sliceTo, sliceFrom.
    rewrite firstn_app, skipn_app.
    replace (idx - length b) with 0 by lia.
    replace (idx + 2 - length b) with 0 by lia.
    change (firstn 0 t) with (@nil codeunit). change (skipn 0 t) with t.
    rewrite app_nil_r. cbv zeta.
    assert (IHr := IH (length (skipn (idx + 2) b))
                     ltac:(rewrite length_skipn; lia) _ eq_refl).
    destruct (negb (truthy (trim (firstn idx b)))).
    + exact IHr.
    + destruct (startsWith (trim (firstn idx b)) DATA_MARKER).
      * destruct (JS.eqb (trim (skipn 5 (trim (firstn idx b)))) DONE);
          [reflexivity|].
        rewrite IHr.
        destruct (drain (skipn (idx + 2) b)) as [[o r] [|]]; [reflexivity|].
        destruct (drain (r ++ t)) as [[o2 r2] ret2]. reflexivity.
      * rewrite IHr.
        destruct (drain (skipn (idx + 2) b)) as [[o r] [|]]; [reflexivity|].
        destruct (drain (r ++ t)) as [[o2 r2] ret2]. reflexivity.
  - destruct (drain (b ++ t)) as [[o2 r2] ret2]. reflexivity.
Qed.

(** Two consecutive reads deliver what one read of their concatenation
    delivers. *)
Lemma read_loop_merge (d : TextDecoder.t) (buffer : jsstring)
    (c1 c2 : list byte) (later : list (list byte))
    (failure : option jsstring) :
  read_loop d buffer (c1 :: c2 :: later) failure =
  read_loop d buffer ((c1 ++ c2) :: later) failure.
Proof.
  cbn [read_loop]. rewrite decode_app.
  destruct (TextDecoder.decode d c1) as [d1 s1].
  destruct (TextDecoder.decode d1 c2) as [d2 s2].
  rewrite app_assoc, (drain_app (buffer ++ s1) s2).
  destruct (drain (buffer ++ s1)) as [[o1 b1] [|]]; [reflexivity|].
  destruct (drain (b1 ++ s2)) as [[o2 b2] [|]]; [reflexivity|].
  destruct (read_loop d2 b2 later failure) as [o3 c].
  rewrite app_assoc. reflexivity.
Qed.

Lemma read_loop_concat (d : TextDecoder.t) (buffer : jsstring)
    (c : list byte) (later : list (list byte))
    (failure : option jsstring) :
  read_loop d buffer (c :: later) failure =
  read_loop d buffer [c ++ concat later] failure.
Proof.
  revert c; induction later as [|c2 later IH]; intros c.
  - simpl concat. rewrite app_nil_r. reflexivity.
  - rewrite read_loop_merge, IH. simpl concat.
    rewrite app_assoc. reflexivity.
Qed.

End FrameLoop.

(** C1.  However the bytes of a stream are cut into chunks (between
    frames, inside a frame, inside the blank line or inside a multi-byte
    character), the callback receives the same payloads in the same
    order as when the whole content arrives as one chunk; the function
    also ends the same way and leaves the caller's state the same. *)
Theorem chunking_invariance (pieces : list (list byte))
    (ending : option jsstring) :
  Api.read_loop TextDecoder.init [] pieces ending =
    Api.read_loop TextDecoder.init [] [concat pieces] ending
  /\ Api.delivered {| chunks := pieces; failure := ending |} =
     Api.delivered {| chunks := [concat pieces]; failure := ending |}
  /\ forall (S : Type) (onChunk : jsstring -> S -> S) (s : S)
            (b : RagBody) (w : World) (code : N) (reason : jsstring),
       Api.ragStream
         (native_fetch (fun _ =>
            Return {| status := code; statusText := reason;
                      body := Some {| chunks := pieces;
                                      failure := ending |} |}))
         b onChunk s w
       = Api.ragStream
           (native_fetch (fun _ =>
              Return {| status := code; statusText := reason;
                        body := Some {| chunks := [concat pieces];
                                        failure := ending |} |}))
           b onChunk s w.
Proof.
  assert (E : Api.read_loop TextDecoder.init [] pieces ending =
              Api.read_loop TextDecoder.init [] [concat pieces] ending).
  { destruct pieces as [|c later].
    - simpl concat. cbn [Api.read_loop TextDecoder.decode app].
      rewrite drain_unfold. simpl. destruct ending; reflexivity.
    - rewrite read_loop_concat. reflexivity. }
  split; [exact E|]. split.
  - unfold Api.delivered. cbn [chunks failure]. rewrite E. reflexivity.
  - intros S onChunk s b w code reason.
    unfold Api.ragStream, native_fetch, ok. cbn [status body].
    destruct ((200 <=? code) && (code <=? 299))%N; [|reflexivity].
    cbn [chunks failure]. rewrite E. reflexivity.
Qed.

(** C2.  A frame that carries the marker and whose payload is [[DONE]]
    ends the function at once: that frame delivers nothing, no text
    after it in the buffer is looked at, no later chunk is read; and the
    stream [data: Hello], blank line, [data: [DONE]], blank line
    delivers the one payload [Hello]. *)
Theorem done_sentinel_stops :
  (forall buffer idx,
      indexOf buffer Api.BLANK_LINE = Some idx ->
      startsWith (trim (sliceTo buffer idx)) Api.DATA_MARKER = true ->
      trim (sliceFrom (trim (sliceTo buffer idx)) 5) = Api.DONE ->
      Api.drain buffer = ([], sliceFrom buffer (idx + 2), true))
  /\ (forall buffer more out rest,
        Api.drain buffer = (out, rest, true) ->
        Api.drain (buffer ++ more) = (out, rest ++ more, true))
  /\ (forall d buffer value later ending d1 s out rest,
        TextDecoder.decode d value = (d1, s) ->
        Api.drain (buffer ++ s) = (out, rest, true) ->
        Api.read_loop d buffer (value :: later) ending = (out, Return tt))
  /\ Api.delivered {| chunks := [Spec.frame "data: Hello"
                                   ++ Spec.frame "data: [DONE]"];
                      failure := None |} = [lit "Hello"].
Proof.
  split; [|split; [|split]].
  - intros buffer idx Hidx Hm Hd. rewrite drain_unfold, Hidx. cbv zeta.
    destruct (trim (sliceTo buffer idx)) as [|c raw] eqn:E;
      [discriminate Hm|].
    cbn [truthy negb]. rewrite Hm, Hd.
    replace (JS.eqb Api.DONE Api.DONE) with true
      by (symmetry; apply jseqb_eq; reflexivity).
    reflexivity.
  - intros buffer more out rest H. rewrite drain_app, H. reflexivity.
  - intros d buffer value later ending d1 s out rest Hd Hr.
    cbn [Api.read_loop]. rewrite Hd, Hr. reflexivity.
  - vm_compute. reflexivity.
Qed.

(** The sentinel with a complete frame behind it in the same chunk and a
    further chunk pending. *)
Lemma done_sentinel_stops_witness :
  Api.drain (lit "data: [DONE]" ++ Api.BLANK_LINE ++ lit "data: late"
             ++ Api.BLANK_LINE)
    = ([], lit "data: late" ++ Api.BLANK_LINE, true)
  /\ Api.drain ((lit "data: Hello" ++ Api.BLANK_LINE ++ lit "data: [DONE]"
                 ++ Api.BLANK_LINE) ++ lit "data: late" ++ Api.BLANK_LINE)
     = ([lit "Hello"], [] ++ lit "data: late" ++ Api.BLANK_LINE, true)
  /\ Api.read_loop TextDecoder.init []
       ((Spec.frame "data: Hello" ++ Spec.frame "data: [DONE]")
          :: [Spec.frame "data: late"]) (Some (lit "reset"))
     = ([lit "Hello"], Return tt).
Proof.
  destruct done_sentinel_stops as (A & B & C & _).
  split; [|split].
  - apply (A (lit "data: [DONE]" ++ Api.BLANK_LINE ++ lit "data: late"
              ++ Api.BLANK_LINE) 12); vm_compute; reflexivity.
  - apply (B (lit "data: Hello" ++ Api.BLANK_LINE ++ lit "data: [DONE]"
              ++ Api.BLANK_LINE)); vm_compute; reflexivity.
  - eapply (C TextDecoder.init []); vm_compute; reflexivity.
Defined.

(** A stream cut inside the two-byte character U+00E9, inside the blank
    line and inside the marker delivers what the uncut stream delivers. *)
Example split_character_example :
  Api.delivered {| chunks := [[x64; x61; x74]; [x61; x3a; x20; xc3];
                              [xa9; x0a]; [x0a]];
                   failure := None |} = [[233%N]]
  /\ Api.delivered {| chunks := [[x64; x61; x74; x61; x3a; x20; xc3; xa9;
                                  x0a; x0a]];
                      failure := None |} = [[233%N]].
Proof. split; vm_compute; reflexivity. Qed.

(** A frame [[DONE]] without the marker is an ordinary frame: its text
    is delivered and the loop goes on. *)
Example unmarked_done_is_delivered :
  Api.drain (lit "[DONE]" ++ Api.BLANK_LINE ++ lit "data: next"
             ++ Api.BLANK_LINE)
  = ([lit "[DONE]"; lit "next"], [], false).
Proof. vm_compute. reflexivity. Qed.

(** C8, as stated, fails: a frame without the marker that starts with a
    space is delivered without that space. *)
Lemma fallback_verbatim_counterexample :
  Api.drain (lit " hi" ++ Api.BLANK_LINE) = ([lit "hi"], [], false)
  /\ ~ (forall buffer idx,
          indexOf buffer Api.BLANK_LINE = Some idx ->
          startsWith (sliceTo buffer idx) Api.DATA_MARKER = false ->
          exists out rest ret,
            Api.drain buffer = (sliceTo buffer idx :: out, rest, ret)).
Proof.
  split; [vm_compute; reflexivity|].
  intros H.
  destruct (H (lit " hi" ++ Api.BLANK_LINE) 3 eq_refl eq_refl)
    as (out & rest & ret & E).
  vm_compute in E. discriminate E.
Qed.

(** C8, amended.  A complete frame that the loop reaches (the text
    before it is made of complete frames and holds no sentinel) and
    whose text, once trimmed, is not empty and does not begin with the
    marker is delivered as that trimmed text, after the payloads of the
    frames before it and before those of the text after it.  The text
    delivered is the frame's own text exactly when the frame has no
    white space at either end. *)
Theorem fallback_delivers_trimmed (before frame after : jsstring)
    (out : list jsstring) :
  Api.drain before = (out, [], false) ->
  indexOf (frame ++ Api.BLANK_LINE) Api.BLANK_LINE = Some (length frame) ->
  truthy (trim frame) = true ->
  startsWith (trim frame) Api.DATA_MARKER = false ->
  Api.drain (before ++ frame ++ Api.BLANK_LINE ++ after) =
    (out ++ trim frame :: fst (fst (Api.drain after)),
     snd (fst (Api.drain after)), snd (Api.drain after))
  /\ (trim frame = frame <->
      (forall c, hd_error frame = Some c -> isWhiteSpace c = false)
      /\ (forall c, hd_error (rev frame) = Some c -> isWhiteSpace c = false)).
Proof.
  intros Hb Hidx Ht Hm. split.
  - rewrite drain_app, Hb. rewrite app_nil_l.
    rewrite (app_assoc frame Api.BLANK_LINE after).
    rewrite drain_unfold, (indexOf_app _ after _ _ Hidx). cbv zeta.
    unfold sliceTo, sliceFrom.
    rewrite <- (app_assoc frame Api.BLANK_LINE after).
    rewrite firstn_app, Nat.sub_diag, firstn_all, app_nil_r.
    rewrite skipn_app, skipn_all2 by lia.
    replace (length frame + 2 - length frame) with 2 by lia.
    change (skipn 2 (Api.BLANK_LINE ++ after)) with after.
    rewrite app_nil_l, Ht, Hm. cbn [negb].
    destruct (Api.drain after) as [[o r] ret]. reflexivity.
  - split; [apply trim_fixed_ends|]. intros [Hh Hl]. apply trim_id; assumption.
Qed.

(** The second frame of a buffer, with white space around it; and a
    frame without any. *)
Lemma fallback_delivers_trimmed_witness :
  (Api.drain (lit "data: a" ++ Api.BLANK_LINE ++ lit " plain text  "
              ++ Api.BLANK_LINE ++ lit "data: b" ++ Api.BLANK_LINE)
   = ([lit "a"; lit "plain text"; lit "b"], [], false))
  /\ (trim (lit "plain text") = lit "plain text" <->
      (forall c, hd_error (lit "plain text") = Some c ->
                 isWhiteSpace c = false)
      /\ (forall c, hd_error (rev (lit "plain text")) = Some c ->
                    isWhiteSpace c = false)).
Proof.
  split.
  - exact (proj1 (fallback_delivers_trimmed
                    (lit "data: a" ++ Api.BLANK_LINE) (lit " plain text  ")
                    (lit "data: b" ++ Api.BLANK_LINE) [lit "a"]
                    eq_refl eq_refl eq_refl eq_refl)).
  - exact (proj2 (fallback_delivers_trimmed
                    (lit "data: a" ++ Api.BLANK_LINE) (lit "plain text")
                    (lit "data: b" ++ Api.BLANK_LINE) [lit "a"]
                    eq_refl eq_refl eq_refl eq_refl)).
Defined.

(** ** The auth session *)
Section AuthFacts.

Import Spec.

Lemma logout_logged_out (w : World) : logged_out (AuthContext.logout w).
Proof.
  unfold logged_out, AuthContext.logout, Api.getToken. simpl.
  destruct (localStorage w); auto.
Qed.

(** What the installed wrapper does with a 401 answer. *)
Lemma window_fetch_401 {B : Type}
    (server : Request -> Completion (Response B)) (req : Request)
    (w : World) (res : Response B) :
  server req = Return res -> status res = 401%N ->
  AuthContext.window_fetch server req w =
    (Return res,
     AuthContext.logout {| localStorage := localStorage w; auth := auth w;
                           sent := sent w ++ [req] |}).
Proof.
  intros Hs H401. unfold AuthContext.window_fetch, AuthContext.intercept,
    native_fetch. rewrite Hs, H401. reflexivity.
Qed.

Lemma not_ok_401 {B : Type} (res : Response B) :
  status res = 401%N -> ok res = false.
Proof. unfold ok. intros ->. reflexivity. Qed.

Lemma handle_401 {T : Type} (res : Response (Body T)) :
  status res = 401%N -> exists m, Api.handleJsonResponse res = Throw m.
Proof.
  intros H. unfold Api.handleJsonResponse. rewrite (not_ok_401 _ H).
  destruct (body res); eauto.
Qed.

End AuthFacts.

(** C3.  When the answer to an intercepted call has status 401, the
    caller gets that very response, and afterwards the stored token, the
    session token and the user are all empty; this holds for the bare
    call and for login, signup, the query, the streamed query and the
    history fetch alike. *)
Theorem unauthorized_logs_out :
  (forall (B : Type) (server : Request -> Completion (Response B))
          (req : Request) (w : World) (res : Response B),
      server req = Return res -> status res = 401%N ->
      fst (AuthContext.window_fetch server req w) = Return res
      /\ Spec.logged_out (snd (AuthContext.window_fetch server req w)))
  /\ (forall (res : Response (Body Api.LoginData)) email password w,
        status res = 401%N ->
        Spec.logged_out
          (snd (AuthContext.login
                  (AuthContext.window_fetch (fun _ => Return res))
                  email password w)))
  /\ (forall (res : Response (Body Api.LoginData)) email username password
             provider model w,
        status res = 401%N ->
        Spec.logged_out
          (snd (AuthContext.signup
                  (AuthContext.window_fetch (fun _ => Return res))
                  email username password provider model w)))
  /\ (forall (res : Response (Body Api.RagResult)) b w,
        status res = 401%N ->
        Spec.logged_out
          (snd (Api.ragQuery
                  (AuthContext.window_fetch (fun _ => Return res)) b w)))
  /\ (forall (res : Response (option ReadableStream)) (S : Type) b
             (onChunk : jsstring -> S -> S) s w,
        status res = 401%N ->
        Spec.logged_out
          (snd (Api.ragStream
                  (AuthContext.window_fetch (fun _ => Return res))
                  b onChunk s w)))
  /\ (forall (res : Response (Body Api.History)) skip limit sid w,
        status res = 401%N ->
        Spec.logged_out
          (snd (Api.queryHistory
                  (AuthContext.window_fetch (fun _ => Return res))
                  skip limit sid w))).
Proof.
  split; [|split; [|split; [|split; [|split]]]].
  - intros B server req w res Hs H. rewrite (window_fetch_401 _ _ _ _ Hs H).
    split; [reflexivity | apply logout_logged_out].
  - intros res email password w H.
    unfold AuthContext.login, Api.login.
    rewrite (window_fetch_401 _ _ _ res eq_refl H).
    destruct (handle_401 res H) as [m ->]. apply logout_logged_out.
  - intros res email username password provider model w H.
    unfold AuthContext.signup, Api.signup.
    rewrite (window_fetch_401 _ _ _ res eq_refl H).
    destruct (handle_401 res H) as [m ->]. apply logout_logged_out.
  - intros res b w H. unfold Api.ragQuery.
    rewrite (window_fetch_401 _ _ _ res eq_refl H). apply logout_logged_out.
  - intros res S b onChunk s w H. unfold Api.ragStream.
    rewrite (window_fetch_401 _ _ _ res eq_refl H).
    rewrite (not_ok_401 _ H). apply logout_logged_out.
  - intros res skip limit sid w H. unfold Api.queryHistory.
    rewrite (window_fetch_401 _ _ _ res eq_refl H). apply logout_logged_out.
Qed.

Lemma unauthorized_logs_out_witness :
  (fst (AuthContext.window_fetch (fun _ => Return Spec.unauthorized)
          (Spec.loginRequest (lit "a@b.com") (lit "pw")) Spec.signed_in)
     = Return Spec.unauthorized
   /\ Spec.logged_out
        (snd (AuthContext.window_fetch (fun _ => Return Spec.unauthorized)
                (Spec.loginRequest (lit "a@b.com") (lit "pw"))
                Spec.signed_in)))
  /\ Spec.logged_out
       (snd (AuthContext.login
               (AuthContext.window_fetch (fun _ => Return Spec.unauthorized))
               (lit "a@b.com") (lit "pw") Spec.signed_in)).
Proof.
  destruct unauthorized_logs_out as (A & B & _).
  split.
  - apply A; reflexivity.
  - apply B; reflexivity.
Defined.

(** C6, as stated, fails: a login refused with status 401 returns false,
    and the token stored before the attempt is gone after it. *)
Lemma login_failure_counterexample :
  fst (AuthContext.login
         (AuthContext.window_fetch (fun _ => Return Spec.unauthorized))
         (lit "a@b.com") (lit "pw") Spec.signed_in) = false
  /\ Api.getToken Spec.signed_in = Some (lit "old")
  /\ Api.getToken
       (snd (AuthContext.login
               (AuthContext.window_fetch (fun _ => Return Spec.unauthorized))
               (lit "a@b.com") (lit "pw") Spec.signed_in)) = None
  /\ ~ (forall server email password w,
          fst (AuthContext.login (AuthContext.window_fetch server)
                 email password w) = false ->
          Spec.same_session w
            (snd (AuthContext.login (AuthContext.window_fetch server)
                    email password w))).
Proof.
  split; [reflexivity|]. split; [reflexivity|]. split; [reflexivity|].
  intros H.
  destruct (H (fun _ => Return Spec.unauthorized) (lit "a@b.com") (lit "pw")
              Spec.signed_in eq_refl) as [E _].
  vm_compute in E. discriminate E.
Qed.

(** A success answer that lacks the token makes [login] return false,
    after [setToken] has already removed the stored token. *)
Lemma login_without_token_clears_storage :
  AuthContext.login
    (AuthContext.window_fetch (fun _ => Return Spec.empty_answer))
    (lit "a@b.com") (lit "pw") Spec.signed_in
  = (false,
     {| localStorage := Some None;
        auth := auth Spec.signed_in;
        sent := [Spec.loginRequest (lit "a@b.com") (lit "pw")] |}).
Proof. reflexivity. Qed.

Section LoginFacts.

Import Spec.

Lemma handle_return_ok {T : Type} (res : Response (Body T)) (v : option T) :
  Api.handleJsonResponse res = Return v -> ok res = true.
Proof.
  unfold Api.handleJsonResponse.
  destruct (body res); destruct (ok res); congruence.
Qed.

Lemma ok_not_401 {B : Type} (res : Response B) :
  ok res = true -> (status res =? 401)%N = false.
Proof.
  unfold ok. intros H. apply andb_prop in H as [_ H].
  apply N.leb_le in H. apply N.eqb_neq. lia.
Qed.

(** The wrapper lets through every answer but a 401. *)
Lemma window_fetch_other {B : Type}
    (server : Request -> Completion (Response B)) (req : Request)
    (w : World) :
  match server req with
  | Return res => (status res =? 401)%N = false
  | Throw _ => True
  end ->
  AuthContext.window_fetch server req w =
    (server req,
     {| localStorage := localStorage w; auth := auth w;
        sent := sent w ++ [req] |}).
Proof.
  unfold AuthContext.window_fetch, AuthContext.intercept, native_fetch.
  destruct (server req) as [res|m]; [intros ->|]; reflexivity.
Qed.

End LoginFacts.

(** C6, amended.  [login] always returns a boolean.  It returns false
    and leaves the stored token, the session token and the user as they
    were when the call fails in transit, and when the answer has a
    status other than 401 and yields no data (malformed body, [null], or
    a non-success status).  On a 401 answer it returns false and the
    session is logged out.  On a success answer without a non-empty
    access token it returns false.  On a success answer with a non-empty
    access token it returns true, the session token is that token, the
    user is the one returned, and the stored token is that token
    whenever the storage is available. *)
Theorem login_contract
    (server : Request -> Completion (Response (Body Api.LoginData)))
    (email password : jsstring) (w : World) :
  let attempt :=
    AuthContext.login (AuthContext.window_fetch server) email password w in
  let req := Spec.loginRequest email password in
  (forall m, server req = Throw m ->
     fst attempt = false /\ Spec.same_session w (snd attempt))
  /\ (forall res, server req = Return res -> status res <> 401%N ->
        (forall data, Api.handleJsonResponse res <> Return (Some data)) ->
        fst attempt = false /\ Spec.same_session w (snd attempt))
  /\ (forall res, server req = Return res -> status res = 401%N ->
        fst attempt = false /\ Spec.logged_out (snd attempt))
  /\ (forall res data, server req = Return res ->
        Api.handleJsonResponse res = Return (Some data) ->
        present (Api.access_token data) = None ->
        fst attempt = false)
  /\ (forall res data tok, server req = Return res ->
        Api.handleJsonResponse res = Return (Some data) ->
        present (Api.access_token data) = Some tok ->
        fst attempt = true
        /\ token (auth (snd attempt)) = Some tok
        /\ user (auth (snd attempt)) = Api.login_user data
        /\ (localStorage w <> None -> Api.getToken (snd attempt) = Some tok)).
Proof.
  cbv zeta. unfold AuthContext.login, Api.login, Spec.loginRequest.
  split; [|split; [|split; [|split]]].
  - intros m Hs. rewrite window_fetch_other by (rewrite Hs; exact I).
    rewrite Hs. split; [reflexivity | split; reflexivity].
  - intros res Hs Hn Hd.
    rewrite window_fetch_other
      by (rewrite Hs; apply N.eqb_neq; exact Hn).
    rewrite Hs.
    destruct (Api.handleJsonResponse res) as [[data|]|m] eqn:E.
    + exfalso. exact (Hd data eq_refl).
    + split; [reflexivity | split; reflexivity].
    + split; [reflexivity | split; reflexivity].
  - intros res Hs H.
    rewrite (window_fetch_401 _ _ _ res Hs H).
    destruct (handle_401 res H) as [m ->].
    split; [reflexivity | apply logout_logged_out].
  - intros res data Hs Hh Hp.
    rewrite window_fetch_other
      by (rewrite Hs; apply ok_not_401; exact (handle_return_ok _ _ Hh)).
    rewrite Hs, Hh, Hp. reflexivity.
  - intros res data tok Hs Hh Hp.
    rewrite window_fetch_other
      by (rewrite Hs; apply ok_not_401; exact (handle_return_ok _ _ Hh)).
    rewrite Hs, Hh, Hp. cbn.
    repeat split. intros Hl. unfold Api.getToken. cbn.
    destruct (localStorage w); [|contradiction]. rewrite Hp. reflexivity.
Qed.

(** A network failure, a broken answer, a refusal, an answer without a
    token, and the stub of the specification, which grants [tok1]. *)
Lemma login_contract_witness :
  (fst (AuthContext.login
          (AuthContext.window_fetch (fun _ => Throw (lit "Failed to fetch")))
          (lit "a@b.com") (lit "pw") Spec.signed_in) = false
   /\ Spec.same_session Spec.signed_in
        (snd (AuthContext.login
                (AuthContext.window_fetch
                   (fun _ => Throw (lit "Failed to fetch")))
                (lit "a@b.com") (lit "pw") Spec.signed_in)))
  /\ (fst (AuthContext.login
             (AuthContext.window_fetch (fun _ => Return Spec.broken))
             (lit "a@b.com") (lit "pw") Spec.signed_in) = false
      /\ Spec.same_session Spec.signed_in
           (snd (AuthContext.login
                   (AuthContext.window_fetch (fun _ => Return Spec.broken))
                   (lit "a@b.com") (lit "pw") Spec.signed_in)))
  /\ (fst (AuthContext.login
             (AuthContext.window_fetch (fun _ => Return Spec.unauthorized))
             (lit "a@b.com") (lit "pw") Spec.signed_in) = false
      /\ Spec.logged_out
           (snd (AuthContext.login
                   (AuthContext.window_fetch
                      (fun _ => Return Spec.unauthorized))
                   (lit "a@b.com") (lit "pw") Spec.signed_in)))
  /\ fst (AuthContext.login
            (AuthContext.window_fetch (fun _ => Return Spec.empty_answer))
            (lit "a@b.com") (lit "pw") Spec.signed_in) = false
  /\ (fst (AuthContext.login
             (AuthContext.window_fetch (fun _ => Return Spec.granted))
             (lit "a@b.com") (lit "pw") Spec.signed_out) = true
      /\ token (auth (snd (AuthContext.login
                             (AuthContext.window_fetch
                                (fun _ => Return Spec.granted))
                             (lit "a@b.com") (lit "pw") Spec.signed_out)))
         = Some (lit "tok1")
      /\ user (auth (snd (AuthContext.login
                            (AuthContext.window_fetch
                               (fun _ => Return Spec.granted))
                            (lit "a@b.com") (lit "pw") Spec.signed_out)))
         = Some Spec.alice
      /\ Api.getToken (snd (AuthContext.login
                              (AuthContext.window_fetch
                                 (fun _ => Return Spec.granted))
                              (lit "a@b.com") (lit "pw") Spec.signed_out))
         = Some (lit "tok1")).
Proof.
  split; [|split; [|split; [|split]]].
  - destruct (login_contract (fun _ => Throw (lit "Failed to fetch"))
                (lit "a@b.com") (lit "pw") Spec.signed_in) as (A & _).
    exact (A _ eq_refl).
  - destruct (login_contract (fun _ => Return Spec.broken)
                (lit "a@b.com") (lit "pw") Spec.signed_in) as (_ & B & _).
    apply (B Spec.broken eq_refl); [discriminate | intros data; discriminate].
  - destruct (login_contract (fun _ => Return Spec.unauthorized)
                (lit "a@b.com") (lit "pw") Spec.signed_in)
      as (_ & _ & C & _).
    exact (C Spec.unauthorized eq_refl eq_refl).
  - destruct (login_contract (fun _ => Return Spec.empty_answer)
                (lit "a@b.com") (lit "pw") Spec.signed_in)
      as (_ & _ & _ & D & _).
    exact (D Spec.empty_answer Spec.no_data eq_refl eq_refl eq_refl).
  - destruct (login_contract (fun _ => Return Spec.granted)
                (lit "a@b.com") (lit "pw") Spec.signed_out)
      as (_ & _ & _ & _ & E).
    destruct (E Spec.granted
                {| Api.access_token := Some (lit "tok1");
                   Api.login_user := Some Spec.alice |} (lit "tok1")
                eq_refl eq_refl eq_refl) as (E1 & E2 & E3 & E4).
    split; [exact E1|]. split; [exact E2|]. split; [exact E3|].
    apply E4. discriminate.
Defined.

(** ** The chat engine *)

(** C4.  While a send is in flight ([loading] set), [send] returns at
    its guard: the page state, with its message list and the exchange
    under way, is returned as it was, and so is the world, whose log of
    requests has nothing new. *)
Theorem send_while_busy (env : Chat.SendEnv)
    (fetchStream : Fetch (option ReadableStream))
    (fetchJson : Fetch (Body Api.RagResult))
    (st : Chat.ChatState) (w : World) :
  Chat.loading st = true ->
  Chat.begin env st = None
  /\ Chat.send env fetchStream fetchJson st w = (st, w).
Proof.
  intros H.
  assert (E : Chat.begin env st = None).
  { unfold Chat.begin, Chat.disableSubmit. rewrite H, orb_true_r.
    reflexivity. }
  split; [exact E|]. unfold Chat.send. rewrite E. reflexivity.
Qed.

Lemma send_while_busy_witness :
  Chat.loading Spec.in_flight = true
  /\ length (Chat.messages Spec.in_flight) = 2
  /\ Chat.begin Spec.env1 Spec.in_flight = None
  /\ Chat.send Spec.env1
       (native_fetch (fun _ => Throw (lit "unreachable")))
       (native_fetch (fun _ => Throw (lit "unreachable")))
       Spec.in_flight Spec.signed_in
     = (Spec.in_flight, Spec.signed_in).
Proof.
  split; [reflexivity|]. split; [reflexivity|].
  apply send_while_busy. reflexivity.
Defined.

(** C10.  When the input holds nothing but white space, [send] returns
    at its guard also on an idle page: no message is added, no request
    goes out, and [loading] stays as it was. *)
Theorem send_blank_query (env : Chat.SendEnv)
    (fetchStream : Fetch (option ReadableStream))
    (fetchJson : Fetch (Body Api.RagResult))
    (st : Chat.ChatState) (w : World) :
  forallb isWhiteSpace (Chat.query st) = true ->
  Chat.begin env st = None
  /\ Chat.send env fetchStream fetchJson st w = (st, w).
Proof.
  intros H.
  assert (E : Chat.begin env st = None).
  { unfold Chat.begin, Chat.disableSubmit.
    rewrite (trim_all_space _ H). reflexivity. }
  split; [exact E|]. unfold Chat.send. rewrite E. reflexivity.
Qed.

Lemma send_blank_query_witness :
  Chat.loading (Chat.setQuery [32%N; 9%N; 10%N] Spec.asking) = false
  /\ Chat.begin Spec.env1 (Chat.setQuery [32%N; 9%N; 10%N] Spec.asking) = None
  /\ Chat.send Spec.env1
       (native_fetch (fun _ => Throw (lit "unreachable")))
       (native_fetch (fun _ => Throw (lit "unreachable")))
       (Chat.setQuery [32%N; 9%N; 10%N] Spec.asking) Spec.signed_in
     = (Chat.setQuery [32%N; 9%N; 10%N] Spec.asking, Spec.signed_in).
Proof.
  split; [reflexivity|].
  apply send_blank_query. reflexivity.
Defined.

(** *** Hydration *)
Section HydrationFacts.

Import Spec.

Lemma hydrate_item_contribution (clock : nat -> jsstring) (tick : nat)
    (q : Api.QueryItem) :
  contribution q (fst (Chat.hydrate_item clock tick q)).
Proof.
  unfold Chat.hydrate_item, contribution, has_answer, user_message_of,
    assistant_message_of, Chat.or_now.
  destruct (present (Api.created_at q)) as [c|] eqn:Ec;
    destruct (Api.q_response q) as [r|] eqn:Er; cbn;
    try (destruct (present (Api.response_text r)) as [a|] eqn:Ea; cbn;
         try destruct (present (Api.generated_at r)) as [g|] eqn:Eg; cbn);
    repeat split; try congruence;
    try (exists r; rewrite ?Ea, ?Eg; repeat split; congruence).
Qed.

Lemma hydrate_loop_groups (clock : nat -> jsstring)
    (items : list Api.QueryItem) :
  forall tick, exists groups,
    Chat.hydrate_loop clock tick items = concat groups
    /\ Forall2 contribution items groups.
Proof.
  induction items as [|q items IH]; intros tick; simpl.
  - exists []. split; [reflexivity | constructor].
  - pose proof (hydrate_item_contribution clock tick q) as Hq.
    destruct (Chat.hydrate_item clock tick q) as [pushed tick1].
    destruct (IH tick1) as (groups & E & F).
    exists (pushed :: groups). simpl. rewrite E.
    split; [reflexivity | constructor; assumption].
Qed.

Lemma contribution_length (q : Api.QueryItem) (g : list Chat.Message) :
  contribution q g -> length g = if has_answer q then 2 else 1.
Proof.
  destruct g as [|u [|a [|x g]]]; simpl; try tauto.
  - intros [-> _]. reflexivity.
  - intros [-> _]. reflexivity.
Qed.

Lemma groups_length (items : list Api.QueryItem)
    (groups : list (list Chat.Message)) :
  Forall2 contribution items groups ->
  length (concat groups) = length items + length (filter has_answer items).
Proof.
  induction 1 as [|q g items groups Hq _ IH]; simpl; [reflexivity|].
  rewrite length_app, IH, (contribution_length _ _ Hq).
  destruct (has_answer q); simpl; lia.
Qed.

Lemma filter_rev_length {A : Type} (f : A -> bool) (l : list A) :
  length (filter f (rev l)) = length (filter f l).
Proof.
  induction l as [|x l IH]; simpl; [reflexivity|].
  rewrite filter_app, length_app, IH. simpl.
  destruct (f x); simpl; lia.
Qed.

End HydrationFacts.

(** C5, as stated, fails: a record whose response payload has an empty
    text yields its user message only, one message where the count of
    records and response payloads is two. *)
Lemma hydration_count_counterexample :
  Spec.carries_response Spec.silent = true
  /\ length (Chat.hydrate (fun _ => lit "now") (Spec.history [Spec.silent]))
     = 1
  /\ ~ (forall clock records,
          length (Chat.hydrate clock (Spec.history records)) =
          length records + length (filter Spec.carries_response records)).
Proof.
  split; [reflexivity|]. split; [reflexivity|].
  intros H. specialize (H (fun _ => lit "now") [Spec.silent]).
  vm_compute in H. discriminate H.
Qed.

(** C5, amended.  From N records of which M carry a response payload
    with a non-empty text, hydration builds N+M messages, oldest record
    first: each record contributes its user message (id, query text,
    creation time) and, exactly when its response text is non-empty,
    next to it the assistant message (id, response text, generation
    time, timing, token count and context attributions). *)
Theorem hydration_count (clock : nat -> jsstring)
    (records : list Api.QueryItem) :
  length (Chat.hydrate clock (Spec.history records)) =
    length records + length (filter Spec.has_answer records)
  /\ exists groups,
       Chat.hydrate clock (Spec.history records) = concat groups
       /\ Forall2 Spec.contribution (rev records) groups.
Proof.
  unfold Chat.hydrate, Spec.history. cbn [Api.queries].
  destruct (hydrate_loop_groups clock (rev records) 0) as (groups & E & F).
  split.
  - rewrite E, (groups_length _ _ F), length_rev, filter_rev_length.
    reflexivity.
  - exists groups. split; assumption.
Qed.

Section RehydrationFacts.

Import Spec.

(** A record that has its creation time never makes the loop read the
    clock. *)
Lemma hydrate_item_dated (clock : nat -> jsstring) (tick : nat)
    (q : Api.QueryItem) :
  dated q = true ->
  Chat.hydrate_item clock tick q =
    (fst (Chat.hydrate_item (fun _ => []) 0 q), tick).
Proof.
  unfold dated, Chat.hydrate_item, Chat.or_now.
  destruct (present (Api.created_at q)) as [c|]; [intros _|discriminate].
  destruct (Api.q_response q) as [r|]; [|reflexivity].
  destruct (present (Api.response_text r)) as [a|]; [|reflexivity].
  destruct (present (Api.generated_at r)) as [g|]; reflexivity.
Qed.

Lemma hydrate_loop_dated (clock : nat -> jsstring)
    (items : list Api.QueryItem) :
  forallb dated items = true ->
  forall tick,
    Chat.hydrate_loop clock tick items =
    flat_map (fun q => fst (Chat.hydrate_item (fun _ => []) 0 q)) items.
Proof.
  induction items as [|q items IH]; simpl; [reflexivity|].
  intros H tick. apply andb_prop in H as [Hq H].
  rewrite (hydrate_item_dated clock tick q Hq), (IH H). reflexivity.
Qed.

(** Apart from creation times, what a record contributes does not
    depend on the clock. *)
Lemma hydrate_item_undated (clock clock' : nat -> jsstring)
    (tick tick' : nat) (q : Api.QueryItem) :
  map undated (fst (Chat.hydrate_item clock tick q)) =
  map undated (fst (Chat.hydrate_item clock' tick' q)).
Proof.
  unfold Chat.hydrate_item, Chat.or_now.
  destruct (present (Api.created_at q)) as [c|];
    (destruct (Api.q_response q) as [r|]; [|reflexivity]);
    (destruct (present (Api.response_text r)) as [a|]; [|reflexivity]);
    destruct (present (Api.generated_at r)) as [g|]; reflexivity.
Qed.

Lemma hydrate_loop_undated (clock clock' : nat -> jsstring)
    (items : list Api.QueryItem) :
  forall tick tick',
    map undated (Chat.hydrate_loop clock tick items) =
    map undated (Chat.hydrate_loop clock' tick' items).
Proof.
  induction items as [|q items IH]; intros tick tick'; simpl;
    [reflexivity|].
  pose proof (hydrate_item_undated clock clock' tick tick' q) as Hq.
  destruct (Chat.hydrate_item clock tick q) as [p t1].
  destruct (Chat.hydrate_item clock' tick' q) as [p' t1'].
  simpl in Hq. rewrite !map_app, Hq, (IH t1 t1'). reflexivity.
Qed.

Lemma contribution_ids (q : Api.QueryItem) (g : list Chat.Message)
    (m : Chat.Message) :
  contribution q g -> In m g ->
  Chat.id m = Api.q_id q ++ suffix (Chat.role m).
Proof.
  unfold contribution, user_message_of, assistant_message_of.
  destruct g as [|u [|a [|x g]]]; simpl; try tauto.
  - intros (_ & Hi & Hr & _) [<-|[]]. rewrite Hi, Hr. reflexivity.
  - intros (_ & (Hi & Hr & _) & (r & _ & Hi' & Hr' & _)) [<-|[<-|[]]].
    + rewrite Hi, Hr. reflexivity.
    + rewrite Hi', Hr'. reflexivity.
Qed.

Lemma groups_ids (items : list Api.QueryItem)
    (groups : list (list Chat.Message)) (m : Chat.Message) :
  Forall2 contribution items groups -> In m (concat groups) ->
  exists q, In q items /\ Chat.id m = Api.q_id q ++ suffix (Chat.role m).
Proof.
  induction 1 as [|q g items groups Hq _ IH]; simpl; [tauto|].
  intros Hin. apply in_app_or in Hin as [Hin|Hin].
  - exists q. split; [left; reflexivity|].
    exact (contribution_ids _ _ _ Hq Hin).
  - destruct (IH Hin) as (q' & Hq' & E). exists q'. split; auto.
Qed.

(** Two runs over one record: a message that differs between them
    belongs to a record without a creation time, and differs in its
    creation time only. *)
Lemma hydrate_item_compare (clock clock' : nat -> jsstring)
    (tick tick' : nat) (q : Api.QueryItem) :
  Forall2
    (fun m m' =>
       m = m'
       \/ (dated q = false
           /\ Chat.id m = Api.q_id q ++ suffix (Chat.role m)
           /\ undated m = undated m'))
    (fst (Chat.hydrate_item clock tick q))
    (fst (Chat.hydrate_item clock' tick' q)).
Proof.
  unfold dated, Chat.hydrate_item, Chat.or_now.
  destruct (present (Api.created_at q)) as [c|];
    (destruct (Api.q_response q) as [r|];
     [destruct (present (Api.response_text r)) as [a|];
      [destruct (present (Api.generated_at r)) as [g|]|]|]);
    cbn; repeat (apply Forall2_cons || apply Forall2_nil);
    first [left; reflexivity | right; repeat split; reflexivity].
Qed.

Lemma hydrate_loop_compare (clock clock' : nat -> jsstring)
    (items : list Api.QueryItem) :
  forall tick tick',
    Forall2
      (fun m m' =>
         m = m'
         \/ exists q, In q items /\ dated q = false
                      /\ Chat.id m = Api.q_id q ++ suffix (Chat.role m)
                      /\ undated m = undated m')
      (Chat.hydrate_loop clock tick items)
      (Chat.hydrate_loop clock' tick' items).
Proof.
  induction items as [|q items IH]; intros tick tick'; simpl;
    [constructor|].
  pose proof (hydrate_item_compare clock clock' tick tick' q) as Hq.
  destruct (Chat.hydrate_item clock tick q) as [p t1].
  destruct (Chat.hydrate_item clock' tick' q) as [p' t1'].
  cbn [fst] in Hq. apply Forall2_app.
  - eapply Forall2_impl; [|exact Hq].
    intros m m' [E|(D & I & U)]; [left; exact E|].
    right. exists q. simpl. auto.
  - eapply Forall2_impl; [|exact (IH t1 t1')].
    intros m m' [E|(q' & Hq' & D & I & U)]; [left; exact E|].
    right. exists q'. simpl. auto.
Qed.

End RehydrationFacts.

(** A record without a creation time, which the schema of the history
    endpoint does not allow, is stamped with the clock reading of the
    run. *)
Example undated_record_takes_clock :
  map Chat.createdAt
    (Chat.hydrate (fun _ => lit "2025-01-01T10:00:00.000Z")
       (Spec.history [Spec.timeless]))
  = [lit "2025-01-01T10:00:00.000Z"].
Proof. reflexivity. Qed.

(** C7.  Hydration is a function of the server records.  Over records
    that carry their creation time, as every record of the history
    endpoint does, two runs build the same message sequence whatever
    the clock reads; every message id is the id of a record followed by
    [:u] for a user message and [:a] for an assistant message; the
    effect replaces the message list by the sequence built, whatever
    the list held; so running the effect again over the same records
    leaves the message list as the first run made it.  Beyond the
    schema: over any records two runs agree position by position, and a
    message that is not the same in both belongs to a record without a
    creation time and differs in its creation time only. *)
Theorem rehydration_deterministic :
  (forall clock clock' records,
      forallb Spec.dated records = true ->
      Chat.hydrate clock (Spec.history records) =
      Chat.hydrate clock' (Spec.history records))
  /\ (forall clock records m,
        In m (Chat.hydrate clock (Spec.history records)) ->
        exists q, In q records
                  /\ Chat.id m = Api.q_id q ++ Spec.suffix (Chat.role m))
  /\ (forall fetch clock st w sid hist w1,
        present (Chat.sessionId st) = Some sid ->
        Api.queryHistory fetch 0 50 (Some sid) w = (Return hist, w1) ->
        Chat.hydrate clock hist <> [] ->
        Chat.messages (fst (Chat.hydration fetch clock st w)) =
        Chat.hydrate clock hist)
  /\ (forall fetch fetch' clock clock' st w w' sid records w1 w1',
        present (Chat.sessionId st) = Some sid ->
        forallb Spec.dated records = true ->
        Api.queryHistory fetch 0 50 (Some sid) w
          = (Return (Spec.history records), w1) ->
        Api.queryHistory fetch' 0 50 (Some sid) w'
          = (Return (Spec.history records), w1') ->
        Chat.messages
          (fst (Chat.hydration fetch' clock'
                  (fst (Chat.hydration fetch clock st w)) w'))
        = Chat.messages (fst (Chat.hydration fetch clock st w)))
  /\ (forall clock clock' records,
        Forall2
          (fun m m' =>
             m = m'
             \/ exists q, In q records /\ Spec.dated q = false
                          /\ Chat.id m
                             = Api.q_id q ++ Spec.suffix (Chat.role m)
                          /\ Spec.undated m = Spec.undated m')
          (Chat.hydrate clock (Spec.history records))
          (Chat.hydrate clock' (Spec.history records))).
Proof.
  assert (A : forall clock clock' records,
             forallb Spec.dated records = true ->
             Chat.hydrate clock (Spec.history records) =
             Chat.hydrate clock' (Spec.history records)).
  { intros clock clock' records H. unfold Chat.hydrate, Spec.history.
    cbn [Api.queries].
    assert (H' : forallb Spec.dated (rev records) = true).
    { rewrite forallb_forall in *. intros q Hq. apply H.
      apply in_rev. exact Hq. }
    rewrite !(hydrate_loop_dated _ _ H'). reflexivity. }
  split; [exact A|]. split; [|split; [|split]].
  - intros clock records m Hin. unfold Chat.hydrate, Spec.history in Hin.
    cbn [Api.queries] in Hin.
    destruct (hydrate_loop_groups clock (rev records) 0) as (groups & E & F).
    rewrite E in Hin. destruct (groups_ids _ _ _ F Hin) as (q & Hq & Hid).
    exists q. split; [apply in_rev; exact Hq | exact Hid].
  - intros fetch clock st w sid hist w1 Hs Hq Hne.
    unfold Chat.hydration. rewrite Hs, Hq.
    destruct (Chat.hydrate clock hist) as [|m l]; [contradiction|].
    reflexivity.
  - intros fetch fetch' clock clock' st w w' sid records w1 w1'
      Hs Hd Hq Hq'.
    pose proof (A clock' clock records Hd) as E.
    remember (fst (Chat.hydration fetch clock st w)) as st1 eqn:R.
    assert (S1 : Chat.sessionId st1 = Chat.sessionId st
                 /\ Chat.messages st1 =
                    match Chat.hydrate clock (Spec.history records) with
                    | [] => Chat.messages st
                    | l => l
                    end).
    { subst st1. unfold Chat.hydration. rewrite Hs, Hq.
      destruct (Chat.hydrate clock (Spec.history records));
        split; reflexivity. }
    destruct S1 as [Sid Sm].
    unfold Chat.hydration. rewrite Sid, Hs, Hq', E.
    destruct (Chat.hydrate clock (Spec.history records)) as [|m l];
      [reflexivity|].
    cbn. symmetry. exact Sm.
  - intros clock clock' records. unfold Chat.hydrate, Spec.history.
    cbn [Api.queries].
    eapply Forall2_impl; [|apply hydrate_loop_compare].
    intros m m' [E|(q & Hq & D & I & U)]; [left; exact E|].
    right. exists q. split; [apply in_rev; exact Hq|]. auto.
Qed.

(** Two records with their creation times, hydrated at two different
    times and then again over a page that holds other messages. *)
Lemma rehydration_deterministic_witness :
  Chat.hydrate (fun _ => lit "2025-01-01T10:00:00.000Z")
    (Spec.history [Spec.silent; Spec.answered])
  = Chat.hydrate (fun _ => lit "2025-01-01T10:00:09.000Z")
      (Spec.history [Spec.silent; Spec.answered])
  /\ (exists q,
         In q [Spec.silent; Spec.answered]
         /\ lit "q1:a" = Api.q_id q ++ Spec.suffix Chat.assistant)
  /\ Chat.messages
       (fst (Chat.hydration
               (native_fetch
                  (fun _ => Return
                     {| status := 200; statusText := lit "OK";
                        body := JsonObject None
                                  {| Api.queries :=
                                       Some [Spec.silent; Spec.answered] |}
                     |}))
               (fun _ => lit "2025-01-01T10:00:09.000Z")
               (fst (Chat.hydration
                       (native_fetch
                          (fun _ => Return
                             {| status := 200; statusText := lit "OK";
                                body := JsonObject None
                                          {| Api.queries :=
                                               Some [Spec.silent;
                                                     Spec.answered] |}
                             |}))
                       (fun _ => lit "2025-01-01T10:00:00.000Z")
                       (ChatSession.setSessionId (Some (lit "tab-1"))
                          Spec.in_flight)
                       Spec.signed_in))
               Spec.signed_in))
     = Chat.hydrate (fun _ => lit "2025-01-01T10:00:00.000Z")
         (Spec.history [Spec.silent; Spec.answered]).
Proof.
  destruct rehydration_deterministic as (A & B & C & D & _).
  split; [apply A; reflexivity|]. split.
  - apply (B (fun _ => lit "now") [Spec.silent; Spec.answered]
             {| Chat.id := lit "q1:a"; Chat.role := Chat.assistant;
                Chat.text := lit "Retrieval.";
                Chat.createdAt := lit "2025-01-01T10:00:01Z";
                Chat.meta :=
                  Some {| Chat.processing_time_ms := Some 150%Z;
                          Chat.total_tokens := Some 42%Z;
                          Chat.sources :=
                            Some [Api.Attribution (lit "c1")] |} |}).
    vm_compute. right. left. reflexivity.
  - etransitivity.
    + eapply (D _ _ _ _ _ _ _ (lit "tab-1") [Spec.silent; Spec.answered]);
        reflexivity.
    + eapply (C _ _ _ _ (lit "tab-1")); [reflexivity | reflexivity |].
      vm_compute. discriminate.
Defined.

(** *** Settling a send *)
Section SettleFacts.

Import Spec.

Lemma jseqb_refl (s : jsstring) : JS.eqb s s = true.
Proof. apply jseqb_eq. reflexivity. Qed.

Lemma placeholder_snoc (l : list Chat.Message) (a : Chat.Message) :
  placeholder (l ++ [a]) = Some a.
Proof. unfold placeholder. rewrite rev_app_distr. reflexivity. Qed.

(** An update by id reaches the last message when it has that id, and
    keeps every position. *)
Lemma mapAssistant_snoc (aid : jsstring) (f : Chat.Message -> Chat.Message)
    (l : list Chat.Message) (a : Chat.Message) :
  Chat.id a = aid ->
  Chat.mapAssistant aid f (l ++ [a]) = Chat.mapAssistant aid f l ++ [f a].
Proof.
  intros <-. unfold Chat.mapAssistant. rewrite map_app. simpl.
  rewrite jseqb_refl. reflexivity.
Qed.

Lemma mapAssistant_length (aid : jsstring)
    (f : Chat.Message -> Chat.Message) (l : list Chat.Message) :
  length (Chat.mapAssistant aid f l) = length l.
Proof. apply length_map. Qed.

(** The streamed payloads are appended, in order, to the text of the
    last message; nothing else of it changes. *)
Lemma appendChunk_fold (aid : jsstring) (payloads : list jsstring) :
  forall (st : Chat.ChatState) (before : list Chat.Message)
         (a : Chat.Message),
    Chat.messages st = before ++ [a] -> Chat.id a = aid ->
    exists before' a',
      Chat.messages
        (fold_left (fun acc p => Chat.appendChunk aid p acc) payloads st)
        = before' ++ [a']
      /\ length before' = length before
      /\ Chat.id a' = aid /\ Chat.role a' = Chat.role a
      /\ Chat.meta a' = Chat.meta a
      /\ Chat.text a' = Chat.text a ++ concat payloads.
Proof.
  induction payloads as [|p payloads IH]; intros st before a Hm Hi; simpl.
  - exists before, a. rewrite app_nil_r. repeat split; assumption.
  - destruct (IH (Chat.appendChunk aid p st)
                 (Chat.mapAssistant aid
                    (fun msg =>
                       {| Chat.id := Chat.id msg; Chat.role := Chat.role msg;
                          Chat.text := Chat.text msg ++ p;
                          Chat.createdAt := Chat.createdAt msg;
                          Chat.meta := Chat.meta msg |}) before)
                 {| Chat.id := Chat.id a; Chat.role := Chat.role a;
                    Chat.text := Chat.text a ++ p;
                    Chat.createdAt := Chat.createdAt a;
                    Chat.meta := Chat.meta a |})
      as (before' & a' & E & L & I & R & M & T).
    + unfold Chat.appendChunk. cbn [Chat.messages Chat.setMessages].
      rewrite Hm. apply mapAssistant_snoc. exact Hi.
    + exact Hi.
    + exists before', a'. rewrite E, L, mapAssistant_length.
      cbn in R, M, T. rewrite T, <- app_assoc. repeat split; assumption.
Qed.

(** Whatever the call does, the caller's state is the one the callback
    built from some payloads. *)
Lemma ragStream_state {S : Type} (fetch : Fetch (option ReadableStream))
    (b : RagBody) (onChunk : jsstring -> S -> S) (s : S) (w : World) :
  exists payloads,
    snd (fst (Api.ragStream fetch b onChunk s w)) =
    fold_left (fun acc p => onChunk p acc) payloads s.
Proof.
  unfold Api.ragStream.
  destruct (fetch _ w) as [[res|m] w1]; [|exists []; reflexivity].
  destruct (if ok res then body res else None) as [stream|];
    [|exists []; reflexivity].
  destruct (Api.read_loop _ _ _ _) as [payloads c].
  exists payloads. reflexivity.
Qed.

Lemma begin_messages (env : Chat.SendEnv) (st st3 : Chat.ChatState)
    (payload : RagBody) :
  Chat.begin env st = Some (st3, payload) ->
  exists a,
    Chat.messages st3 =
      (Chat.messages st ++
         [{| Chat.id := Chat.userMsgId env; Chat.role := Chat.user;
             Chat.text := Chat.query st;
             Chat.createdAt := Chat.userCreatedAt env;
             Chat.meta := None |}]) ++ [a]
    /\ Chat.id a = Chat.assistantMsgId env
    /\ Chat.role a = Chat.assistant /\ Chat.text a = []
    /\ Chat.meta a = Some Chat.emptyMeta.
Proof.
  unfold Chat.begin. destruct (Chat.disableSubmit st); [discriminate|].
  intros [= <- _]. eexists. cbn. rewrite <- app_assoc. simpl.
  repeat split.
Qed.

End SettleFacts.

(** C9, as stated, fails: when the server reports a processing time of
    zero, the metadata holds the time measured by the client. *)
Lemma settle_metadata_counterexample :
  Spec.recorded_time
    (fst (Chat.send Spec.env1
            (AuthContext.window_fetch (fun _ => Return Spec.streamed))
            (AuthContext.window_fetch (fun _ => Return Spec.instant))
            (Chat.setStream false Spec.asking) Spec.signed_in))
  = Some 17%Z
  /\ ~ (forall env fetchStream fetchJson st st3 payload w res w1 t,
          Chat.begin env st = Some (st3, payload) ->
          Chat.stream st = false ->
          Api.ragQuery fetchJson payload w = (Return (Some res), w1) ->
          Api.res_processing_time_ms res = Some t ->
          Spec.recorded_time
            (fst (Chat.send env fetchStream fetchJson st w)) = Some t).
Proof.
  split; [vm_compute; reflexivity|].
  intros H.
  destruct (Chat.begin Spec.env1 (Chat.setStream false Spec.asking))
    as [[st3 payload]|] eqn:Hb; [|discriminate Hb].
  specialize (H Spec.env1
                (AuthContext.window_fetch (fun _ => Return Spec.streamed))
                (AuthContext.window_fetch (fun _ => Return Spec.instant))
                (Chat.setStream false Spec.asking) st3 payload
                Spec.signed_in).
  injection Hb as <- <-.
  specialize (H _ _ 0%Z eq_refl eq_refl eq_refl eq_refl).
  vm_compute in H. discriminate H.
Qed.

(** C9, amended.  When a send settles successfully, the placeholder (the
    last message, with the assistant id of that send) holds metadata.
    After a streamed exchange the processing time is the time measured
    by the client and nothing else is set.  After a single-response
    exchange the processing time is the one the server reported when it
    reported one other than zero, and otherwise the time measured by the
    client; the token count and the attributions are those of the
    answer. *)
Theorem settle_metadata (env : Chat.SendEnv)
    (fetchStream : Fetch (option ReadableStream))
    (fetchJson : Fetch (Body Api.RagResult))
    (st st3 : Chat.ChatState) (payload : RagBody) (w : World) :
  Chat.begin env st = Some (st3, payload) ->
  let final := fst (Chat.send env fetchStream fetchJson st w) in
  (Chat.stream st = true ->
   forall st4 w1,
     Api.ragStream fetchStream payload
       (Chat.appendChunk (Chat.assistantMsgId env)) st3 w
       = (Return tt, st4, w1) ->
     exists a,
       Spec.placeholder (Chat.messages final) = Some a
       /\ Chat.id a = Chat.assistantMsgId env
       /\ Chat.role a = Chat.assistant
       /\ Chat.meta a = Some {| Chat.processing_time_ms := Some (Chat.ms env);
                                Chat.total_tokens := None;
                                Chat.sources := None |})
  /\ (Chat.stream st = false ->
      forall res w1,
        Api.ragQuery fetchJson payload w = (Return (Some res), w1) ->
        exists a,
          Spec.placeholder (Chat.messages final) = Some a
          /\ Chat.id a = Chat.assistantMsgId env
          /\ Chat.role a = Chat.assistant
          /\ Chat.meta a =
               Some {| Chat.processing_time_ms :=
                         Some (match Spec.reported res with
                               | Some t => t
                               | None => Chat.ms env
                               end);
                       Chat.total_tokens := Api.res_total_tokens res;
                       Chat.sources := Api.context_documents res |}).
Proof.
  intros Hb. cbv zeta.
  destruct (begin_messages _ _ _ _ Hb) as (a0 & Hm & Hi & Hr & _ & Hmeta).
  unfold Chat.send. rewrite Hb. unfold Chat.exchange. split.
  - intros Hs st4 w1 Hrs. rewrite Hs, Hrs.
    destruct (ragStream_state fetchStream payload
                (Chat.appendChunk (Chat.assistantMsgId env)) st3 w)
      as (payloads & E).
    rewrite Hrs in E. cbn [fst snd] in E.
    destruct (appendChunk_fold (Chat.assistantMsgId env) payloads st3 _ a0
                Hm Hi) as (before' & a' & E' & _ & I' & R' & M' & _).
    rewrite <- E in E'.
    cbn [fst Chat.settle Chat.setLoading Chat.setMessages Chat.messages].
    rewrite E', (mapAssistant_snoc _ _ _ _ I'), placeholder_snoc.
    eexists. split; [reflexivity|]. cbn.
    rewrite M', Hmeta, R', Hr. repeat split. exact I'.
  - intros Hs res w1 Hq. rewrite Hs, Hq.
    cbn [fst Chat.settle Chat.setLoading Chat.setMessages Chat.messages
         Chat.fillAnswer].
    rewrite Hm, !(mapAssistant_snoc _ _ _ _ Hi).
    rewrite mapAssistant_snoc by exact Hi.
    rewrite placeholder_snoc.
    eexists. split; [reflexivity|]. cbn.
    rewrite Hr. repeat split; [exact Hi|].
    unfold Spec.reported.
    destruct (Api.res_processing_time_ms res) as [t|]; [|reflexivity].
    destruct (t =? 0)%Z; reflexivity.
Qed.

(** A streamed send ([foo], [bar], then the sentinel) and a
    single-response send that the server timed at 150 ms. *)
Lemma settle_metadata_witness :
  (exists a,
      Spec.placeholder
        (Chat.messages
           (fst (Chat.send Spec.env1
                   (AuthContext.window_fetch (fun _ => Return Spec.streamed))
                   (AuthContext.window_fetch (fun _ => Return Spec.timed))
                   Spec.asking Spec.signed_in))) = Some a
      /\ Chat.id a = lit "a41f"
      /\ Chat.role a = Chat.assistant
      /\ Chat.meta a = Some {| Chat.processing_time_ms := Some 17%Z;
                               Chat.total_tokens := None;
                               Chat.sources := None |})
  /\ (exists a,
         Spec.placeholder
           (Chat.messages
              (fst (Chat.send Spec.env1
                      (AuthContext.window_fetch
                         (fun _ => Return Spec.streamed))
                      (AuthContext.window_fetch (fun _ => Return Spec.timed))
                      (Chat.setStream false Spec.asking) Spec.signed_in)))
           = Some a
         /\ Chat.id a = lit "a41f"
         /\ Chat.role a = Chat.assistant
         /\ Chat.meta a =
              Some {| Chat.processing_time_ms := Some 150%Z;
                      Chat.total_tokens := Some 42%Z;
                      Chat.sources := Some [Api.Attribution (lit "doc1")] |}).
Proof.
  split.
  - destruct (Chat.begin Spec.env1 Spec.asking) as [[st3 payload]|] eqn:Hb;
      [|discriminate Hb].
    destruct (settle_metadata Spec.env1
                (AuthContext.window_fetch (fun _ => Return Spec.streamed))
                (AuthContext.window_fetch (fun _ => Return Spec.timed))
                Spec.asking st3 payload Spec.signed_in Hb) as [A _].
    injection Hb as <- <-.
    exact (A eq_refl _ _ eq_refl).
  - destruct (Chat.begin Spec.env1 (Chat.setStream false Spec.asking))
      as [[st3 payload]|] eqn:Hb; [|discriminate Hb].
    destruct (settle_metadata Spec.env1
                (AuthContext.window_fetch (fun _ => Return Spec.streamed))
                (AuthContext.window_fetch (fun _ => Return Spec.timed))
                (Chat.setStream false Spec.asking) st3 payload
                Spec.signed_in Hb) as [_ B].
    injection Hb as <- <-.
    exact (B eq_refl _ _ eq_refl).
Defined.

(** The streamed payloads [foo] and [bar] end up, in order, in the text
    of the placeholder. *)
Example streamed_text :
  option_map Chat.text
    (Spec.placeholder
       (Chat.messages
          (fst (Chat.send Spec.env1
                  (AuthContext.window_fetch (fun _ => Return Spec.streamed))
                  (AuthContext.window_fetch (fun _ => Return Spec.timed))
                  Spec.asking Spec.signed_in))))
  = Some (lit "foobar").
Proof. vm_compute. reflexivity. Qed.

(** * Further properties of the code *)

(** ** More on the frame loop *)
Section FrameFacts.

(** X1.  What the frame loop leaves in the buffer is the end of the
    buffer it was given, and, unless the sentinel ended the loop, that
    remainder holds no blank line: no complete frame stays behind. *)
Theorem drain_remainder (buffer : jsstring) :
  (exists consumed, buffer = consumed ++ snd (fst (Api.drain buffer)))
  /\ (snd (Api.drain buffer) = false ->
      indexOf (snd (fst (Api.drain buffer))) Api.BLANK_LINE = None).
Proof.
  remember (length buffer) as n eqn:Hn. revert buffer Hn.
  induction n as [n IH] using lt_wf_ind. intros buffer ->.
  remember (Api.drain buffer) as res eqn:R. rewrite drain_unfold in R.
  destruct (indexOf buffer Api.BLANK_LINE) as [idx|] eqn:Hidx.
  - pose proof (indexOf_length _ _ _ Hidx) as L. simpl in L.
    cbv zeta in R. unfold sliceFrom in R.
    destruct (IH (length (skipn (idx + 2) buffer))
                 ltac:(rewrite length_skipn; lia) _ eq_refl)
      as [(consumed & E) N].
    assert (S : exists consumed',
               buffer = consumed' ++ snd (fst (Api.drain (skipn (idx + 2) buffer)))).
    { exists (firstn (idx + 2) buffer ++ consumed).
      rewrite <- app_assoc, <- E. symmetry. apply firstn_skipn. }
    destruct (negb (truthy (trim (sliceTo buffer idx))));
      [subst res; split; assumption|].
    destruct (startsWith (trim (sliceTo buffer idx)) Api.DATA_MARKER).
    + destruct (JS.eqb _ Api.DONE).
      * subst res. simpl. split; [|discriminate].
        exists (firstn (idx + 2) buffer). symmetry. apply firstn_skipn.
      * destruct (Api.drain (skipn (idx + 2) buffer)) as [[o r] ret].
        subst res. split; assumption.
    + destruct (Api.drain (skipn (idx + 2) buffer)) as [[o r] ret].
      subst res. split; assumption.
  - subst res. simpl. split; [exists []; reflexivity | intros _; exact Hidx].
Qed.

(** X2.  Every payload handed to the callback is free of white space at
    both ends: trimming it changes nothing. *)
Theorem delivered_payloads_trimmed (buffer p : jsstring) :
  In p (fst (fst (Api.drain buffer))) -> trim p = p.
Proof.
  remember (length buffer) as n eqn:Hn. revert buffer Hn.
  induction n as [n IH] using lt_wf_ind. intros buffer ->.
  remember (Api.drain buffer) as res eqn:R. rewrite drain_unfold in R.
  destruct (indexOf buffer Api.BLANK_LINE) as [idx|] eqn:Hidx;
    [|subst res; simpl; tauto].
  pose proof (indexOf_length _ _ _ Hidx) as L. simpl in L.
  cbv zeta in R. unfold sliceFrom in R.
  assert (IHr := IH (length (skipn (idx + 2) buffer))
                   ltac:(rewrite length_skipn; lia) _ eq_refl).
  destruct (negb (truthy (trim (sliceTo buffer idx))));
    [subst res; exact IHr|].
  destruct (startsWith (trim (sliceTo buffer idx)) Api.DATA_MARKER).
  - destruct (JS.eqb _ Api.DONE); [subst res; simpl; tauto|].
    destruct (Api.drain (skipn (idx + 2) buffer)) as [[o r] ret].
    subst res. simpl. intros [<-|H]; [apply trim_idempotent | exact (IHr H)].
  - destruct (Api.drain (skipn (idx + 2) buffer)) as [[o r] ret].
    subst res. simpl. intros [<-|H]; [apply trim_idempotent | exact (IHr H)].
Qed.

End FrameFacts.

Lemma delivered_payloads_trimmed_witness :
  trim (lit "a b") = lit "a b".
Proof.
  apply (delivered_payloads_trimmed
           (lit "data:   a b  " ++ Api.BLANK_LINE ++ lit " other "
            ++ Api.BLANK_LINE)).
  vm_compute. left. reflexivity.
Defined.

Section StreamEndFacts.

Lemma drain_no_blank_line (buffer : jsstring) :
  indexOf buffer Api.BLANK_LINE = None ->
  Api.drain buffer = ([], buffer, false).
Proof. intros H. rewrite drain_unfold, H. reflexivity. Qed.

Lemma read_loop_no_failure (pieces : list (list byte)) :
  forall d buffer, snd (Api.read_loop d buffer pieces None) = Return tt.
Proof.
  induction pieces as [|c pieces IH]; intros d buffer; simpl;
    [reflexivity|].
  destruct (TextDecoder.decode d c) as [d1 s].
  destruct (Api.drain (buffer ++ s)) as [[out b1] [|]]; [reflexivity|].
  specialize (IH d1 b1).
  destruct (Api.read_loop d1 b1 pieces None) as [out' c']. exact IH.
Qed.

End StreamEndFacts.

(** X3.  A stream that ends without the sentinel is not an error: when
    no read fails, the loop returns normally whatever the chunks hold.
    And text that is never closed by a blank line is never delivered:
    a stream whose decoded content has no blank line delivers nothing,
    however it is cut into chunks. *)
Theorem stream_end_without_sentinel :
  (forall d buffer pieces,
      snd (Api.read_loop d buffer pieces None) = Return tt)
  /\ (forall pieces,
        indexOf (snd (TextDecoder.decode TextDecoder.init (concat pieces)))
                Api.BLANK_LINE = None ->
        Api.read_loop TextDecoder.init [] pieces None = ([], Return tt)).
Proof.
  split.
  - intros d buffer pieces. apply read_loop_no_failure.
  - intros pieces H. destruct pieces as [|c later]; [reflexivity|].
    rewrite read_loop_concat. simpl concat in H. cbn [Api.read_loop].
    destruct (TextDecoder.decode TextDecoder.init (c ++ concat later))
      as [d1 s].
    simpl in H. simpl app. rewrite (drain_no_blank_line _ H). reflexivity.
Qed.

Lemma stream_end_without_sentinel_witness :
  Api.read_loop TextDecoder.init []
    [list_byte_of_string "data: par"; list_byte_of_string "tial"; [x0a]]
    None = ([], Return tt).
Proof.
  destruct stream_end_without_sentinel as [_ B].
  apply B. vm_compute. reflexivity.
Defined.

(** ** Events written by the server are read back *)
Section RoundTripFacts.

Lemma indexOf_cons_other (c : codeunit) (s : jsstring) :
  c <> LF ->
  indexOf (c :: s) Api.BLANK_LINE =
  option_map S (indexOf s Api.BLANK_LINE).
Proof.
  intros H. cbn [indexOf startsWith Api.BLANK_LINE].
  destruct (N.eqb_spec c LF); [contradiction|]. reflexivity.
Qed.

(** The blank line that follows a text free of blank lines and not
    ending in a line feed is the first one. *)
Lemma indexOf_after (pre tail : jsstring) :
  indexOf pre Api.BLANK_LINE = None ->
  (forall c, hd_error (rev pre) = Some c -> c <> LF) ->
  indexOf (pre ++ Api.BLANK_LINE ++ tail) Api.BLANK_LINE
    = Some (length pre).
Proof.
  induction pre as [|c pre IH]; intros Hn Hl.
  - reflexivity.
  - assert (Hn' : indexOf pre Api.BLANK_LINE = None).
    { cbn [indexOf] in Hn.
      destruct (startsWith (c :: pre) Api.BLANK_LINE); [discriminate|].
      destruct (indexOf pre Api.BLANK_LINE); [discriminate|reflexivity]. }
    assert (Hl' : forall x, hd_error (rev pre) = Some x -> x <> LF).
    { intros x Hx. apply Hl. simpl.
      destruct (rev pre) as [|y r]; [discriminate|]. exact Hx. }
    assert (Hs : startsWith ((c :: pre) ++ Api.BLANK_LINE ++ tail)
                   Api.BLANK_LINE = false).
    { destruct pre as [|c' pre'].
      - assert (c <> LF) by (apply Hl; reflexivity).
        simpl. destruct (N.eqb_spec c LF); [contradiction|reflexivity].
      - cbn [indexOf] in Hn.
        destruct (startsWith (c :: c' :: pre') Api.BLANK_LINE) eqn:E;
          [discriminate|].
        simpl in *. exact E. }
    simpl app in *. cbn [indexOf]. rewrite Hs.
    rewrite (IH Hn' Hl'). reflexivity.
Qed.

Lemma plain_spec (p : jsstring) :
  Wire.plain p = true ->
  p <> [] /\ trim p = p /\ indexOf p Api.BLANK_LINE = None
  /\ JS.eqb p Api.DONE = false.
Proof.
  unfold Wire.plain. intros H.
  apply andb_prop in H as [H H4]. apply andb_prop in H as [H H3].
  apply andb_prop in H as [H1 H2].
  split; [destruct p; [discriminate|discriminate]|].
  split; [apply jseqb_eq; exact H2|].
  split; [destruct (indexOf p Api.BLANK_LINE); [discriminate|reflexivity]|].
  destruct (JS.eqb p Api.DONE); [discriminate|reflexivity].
Qed.

(** One event at the head of the buffer is delivered as its text. *)
Lemma drain_event (p tail : jsstring) :
  Wire.plain p = true ->
  Api.drain (Wire.event p ++ tail) =
  let '(out, rest, ret) := Api.drain tail in (p :: out, rest, ret).
Proof.
  intros H. destruct (plain_spec p H) as (Hne & Ht & Hn & Hd).
  destruct (trim_fixed_ends p Ht) as [Hh Hl].
  pose (pre := lit "data: " ++ p).
  assert (Epre : Wire.event p ++ tail = pre ++ Api.BLANK_LINE ++ tail).
  { unfold Wire.event, pre. rewrite <- !app_assoc. reflexivity. }
  assert (Hlast : forall c, hd_error (rev pre) = Some c ->
                            isWhiteSpace c = false).
  { intros c Hc. apply Hl. unfold pre in Hc. rewrite rev_app_distr in Hc.
    destruct (rev p) as [|x r] eqn:R.
    - apply (f_equal (@rev codeunit)) in R. rewrite rev_involutive in R.
      contradiction.
    - exact Hc. }
  assert (Hidx : indexOf (pre ++ Api.BLANK_LINE ++ tail) Api.BLANK_LINE
                 = Some (length pre)).
  { apply indexOf_after.
    - unfold pre. change (lit "data: ")
        with [100%N; 97%N; 116%N; 97%N; 58%N; 32%N].
      simpl app. rewrite !indexOf_cons_other by (unfold LF; discriminate).
      rewrite Hn. reflexivity.
    - intros c Hc E. apply Hlast in Hc. subst c. discriminate Hc. }
  rewrite Epre, drain_unfold, Hidx. cbv zeta.
  unfold sliceTo, sliceFrom.
  rewrite firstn_app, Nat.sub_diag, firstn_all, app_nil_r.
  rewrite skipn_app, skipn_all2 by lia.
  replace (length pre + 2 - length pre) with 2 by lia.
  change (skipn 2 (Api.BLANK_LINE ++ tail)) with tail. simpl app.
  assert (Tpre : trim pre = pre).
  { apply trim_id; [|exact Hlast]. intros c. unfold pre.
    change (lit "data: ") with [100%N; 97%N; 116%N; 97%N; 58%N; 32%N].
    simpl. intros [= <-]. reflexivity. }
  assert (T1 : truthy pre = true) by reflexivity.
  assert (T2 : startsWith pre Api.DATA_MARKER = true) by reflexivity.
  assert (T3 : skipn 5 pre = 32%N :: p) by reflexivity.
  assert (Tp : trim (32%N :: p) = p) by exact Ht.
  rewrite Tpre, T1, T2, T3, Tp, Hd. reflexivity.
Qed.

End RoundTripFacts.

Section EventFacts.

Lemma drain_events (payloads : list jsstring) :
  forallb Wire.plain payloads = true ->
  forall t,
    Api.drain (concat (map Wire.event payloads) ++ t) =
    (payloads ++ fst (fst (Api.drain t)),
     snd (fst (Api.drain t)), snd (Api.drain t)).
Proof.
  induction payloads as [|p payloads IH]; intros H t.
  - simpl. destruct (Api.drain t) as [[o r] ret]. reflexivity.
  - simpl in H. apply andb_prop in H as [Hp H].
    cbn [map concat]. rewrite <- app_assoc, (drain_event _ _ Hp), (IH H).
    reflexivity.
Qed.

Lemma drain_done_event (tail : jsstring) :
  Api.drain (Wire.event Api.DONE ++ tail) = ([], tail, true).
Proof.
  change (Wire.event Api.DONE ++ tail)
    with ((lit "data: [DONE]" ++ Api.BLANK_LINE) ++ tail).
  rewrite drain_unfold.
  rewrite (indexOf_app (lit "data: [DONE]" ++ Api.BLANK_LINE) tail
             Api.BLANK_LINE 12 eq_refl).
  reflexivity.
Qed.

Lemma drain_closed_events (payloads : list jsstring) (tail : jsstring) :
  forallb Wire.plain payloads = true ->
  Api.drain (concat (map Wire.event payloads) ++ Wire.event Api.DONE
             ++ tail) = (payloads, tail, true).
Proof.
  intros H. rewrite (drain_events _ H), drain_done_event. simpl.
  rewrite app_nil_r. reflexivity.
Qed.

End EventFacts.

(** X4.  Events written as [data: <text>] and a blank line are read
    back as their texts, in order: a buffer made of such events followed
    by more text delivers the texts and goes on with that text.  So a
    run of events delivers exactly its texts, and a run closed by the
    sentinel event delivers them and stops, whatever follows. *)
Theorem events_round_trip (payloads : list jsstring) (tail : jsstring) :
  forallb Wire.plain payloads = true ->
  Api.drain (concat (map Wire.event payloads) ++ tail) =
    (payloads ++ fst (fst (Api.drain tail)),
     snd (fst (Api.drain tail)), snd (Api.drain tail))
  /\ Api.drain (concat (map Wire.event payloads)) = (payloads, [], false)
  /\ Api.drain (concat (map Wire.event payloads) ++ Wire.event Api.DONE
                ++ tail) = (payloads, tail, true).
Proof.
  intros H. split; [apply drain_events; exact H|]. split.
  - rewrite <- (app_nil_r (concat _)), (drain_events _ H),
      drain_no_blank_line by reflexivity.
    simpl. rewrite app_nil_r. reflexivity.
  - apply drain_closed_events. exact H.
Qed.

Lemma events_round_trip_witness :
  Api.drain (concat (map Wire.event [lit "Hello"; lit "big  world"])
             ++ Wire.event Api.DONE ++ lit "data: late")
  = ([lit "Hello"; lit "big  world"], lit "data: late", true).
Proof.
  destruct (events_round_trip [lit "Hello"; lit "big  world"]
              (lit "data: late")) as (_ & _ & C); [reflexivity|].
  exact C.
Defined.

(** ** ASCII text through the decoder *)
Section AsciiFacts.

Lemma ascii_byte (c : codeunit) :
  (c < 128)%N ->
  Byte.to_N (match Byte.of_N c with Some b => b | None => x00 end) = c.
Proof.
  intros H. destruct (Byte.of_N c) as [b|] eqn:E.
  - apply Byte.to_of_N. exact E.
  - apply Byte.of_N_None_iff in E. lia.
Qed.

Lemma lead_ascii (d : TextDecoder.t) (c : N) :
  (c < 128)%N -> TextDecoder.lead d c = (d, [c]).
Proof.
  intros H. unfold TextDecoder.lead, TextDecoder.between.
  replace (c <=? 127)%N with true by (symmetry; apply N.leb_le; lia).
  replace (0 <=? c)%N with true by (symmetry; apply N.leb_le; lia).
  reflexivity.
Qed.

(** Once a character has been seen, ASCII bytes come out one code unit
    per byte and leave the decoder as it was. *)
Lemma decode_ascii_started (d : TextDecoder.t) (s : jsstring) :
  TextDecoder.bytes_needed d = 0%N -> TextDecoder.bom_seen d = true ->
  Wire.is_ascii s = true ->
  TextDecoder.decode d (Wire.ascii_bytes s) = (d, s).
Proof.
  intros Hn Hb. induction s as [|c s IH]; intros H; [reflexivity|].
  simpl in H. apply andb_prop in H as [Hc H]. apply N.ltb_lt in Hc.
  cbn [Wire.ascii_bytes map TextDecoder.decode].
  unfold TextDecoder.step, TextDecoder.handler.
  rewrite (ascii_byte c Hc), Hn. cbn [N.eqb].
  rewrite (lead_ascii d c Hc). cbn [TextDecoder.serialize]. rewrite Hb.
  unfold TextDecoder.utf16.
  replace (c <? 65536)%N with true by (symmetry; apply N.ltb_lt; lia).
  fold (Wire.ascii_bytes s). rewrite (IH H). reflexivity.
Qed.

Lemma decode_ascii (s : jsstring) :
  Wire.is_ascii s = true ->
  snd (TextDecoder.decode TextDecoder.init (Wire.ascii_bytes s)) = s.
Proof.
  destruct s as [|c s]; [reflexivity|]. intros H.
  simpl in H. apply andb_prop in H as [Hc H]. apply N.ltb_lt in Hc.
  cbn [Wire.ascii_bytes map TextDecoder.decode].
  unfold TextDecoder.step, TextDecoder.handler.
  rewrite (ascii_byte c Hc). cbn [TextDecoder.init TextDecoder.bytes_needed
                                  N.eqb].
  rewrite (lead_ascii _ c Hc).
  cbn [TextDecoder.serialize TextDecoder.bom_seen].
  replace (c =? 65279)%N with false by (symmetry; apply N.eqb_neq; lia).
  unfold TextDecoder.utf16.
  replace (c <? 65536)%N with true by (symmetry; apply N.ltb_lt; lia).
  fold (Wire.ascii_bytes s).
  change (TextDecoder.bom_seen TextDecoder.init) with false. cbv iota.
  rewrite decode_ascii_started by (try reflexivity; exact H).
  reflexivity.
Qed.

Lemma is_ascii_app (a b : jsstring) :
  Wire.is_ascii (a ++ b) = Wire.is_ascii a && Wire.is_ascii b.
Proof. apply forallb_app. Qed.

Lemma is_ascii_events (payloads : list jsstring) :
  forallb Wire.is_ascii payloads = true ->
  Wire.is_ascii (concat (map Wire.event payloads)) = true.
Proof.
  induction payloads as [|p payloads IH]; [reflexivity|].
  intros H. simpl in H. apply andb_prop in H as [Hp H].
  cbn [map concat]. rewrite is_ascii_app, (IH H), andb_true_r.
  unfold Wire.event. rewrite !is_ascii_app, Hp. reflexivity.
Qed.

End AsciiFacts.

(** X5.  End to end: when the server writes ASCII events and closes
    them with the sentinel event, the callback receives exactly their
    texts, in order, and the call returns normally, however the network
    cuts the bytes into chunks and whatever comes after the sentinel. *)
Theorem ascii_stream_round_trip (payloads : list jsstring)
    (after : jsstring) (pieces : list (list byte))
    (ending : option jsstring) :
  forallb Wire.plain payloads = true ->
  forallb Wire.is_ascii payloads = true ->
  Wire.is_ascii after = true ->
  concat pieces =
    Wire.ascii_bytes (concat (map Wire.event payloads)
                      ++ Wire.event Api.DONE ++ after) ->
  Api.read_loop TextDecoder.init [] pieces ending = (payloads, Return tt).
Proof.
  intros Hp Ha Hf E.
  assert (A : Wire.is_ascii (concat (map Wire.event payloads)
                             ++ Wire.event Api.DONE ++ after) = true).
  { rewrite !is_ascii_app, (is_ascii_events _ Ha), Hf. reflexivity. }
  destruct pieces as [|c later].
  - simpl in E. symmetry in E. apply map_eq_nil in E.
    apply app_eq_nil in E as [_ E]. discriminate E.
  - rewrite read_loop_concat. simpl concat in E. rewrite E.
    cbn [Api.read_loop].
    pose proof (decode_ascii _ A) as D.
    destruct (TextDecoder.decode TextDecoder.init _) as [d1 s].
    cbn [snd] in D. subst s. rewrite app_nil_l.
    rewrite (drain_closed_events _ _ Hp). reflexivity.
Qed.

Lemma ascii_stream_round_trip_witness :
  Api.read_loop TextDecoder.init []
    [list_byte_of_string "da"; list_byte_of_string "ta: foo";
     [x0a]; [x0a; x64]; list_byte_of_string "ata: bar";
     [x0a; x0a]; list_byte_of_string "data: [DONE]"; [x0a; x0a; x78]]
    (Some (lit "connection reset"))
  = ([lit "foo"; lit "bar"], Return tt).
Proof.
  apply (ascii_stream_round_trip [lit "foo"; lit "bar"] (lit "x"));
    reflexivity.
Defined.

(** ** What a send changes *)
Section SendFacts.

Lemma jseqb_neq (a b : jsstring) : a <> b -> JS.eqb a b = false.
Proof.
  intros H. destruct (JS.eqb a b) eqn:E; [|reflexivity].
  apply jseqb_eq in E. contradiction.
Qed.

Lemma touched_refl (aid : jsstring) (l : list Chat.Message) :
  Terms.touched_only aid l l.
Proof. induction l; constructor; auto. Qed.

Lemma touched_trans (aid : jsstring) (l1 l2 l3 : list Chat.Message) :
  Terms.touched_only aid l1 l2 -> Terms.touched_only aid l2 l3 ->
  Terms.touched_only aid l1 l3.
Proof.
  intros H. revert l3. induction H as [|a b l1 l2 (I & R & C & E) _ IH];
    intros l3 H3; inversion H3 as [|b' c l2' l3' (I' & R' & C' & E') H3' ];
    subst; constructor; [|apply IH; assumption].
  repeat split; try congruence.
  intros N. rewrite (E' ltac:(congruence)). apply E. exact N.
Qed.

(** An update by id that keeps id, role and creation time touches only
    the messages with that id. *)
Lemma mapAssistant_touched (aid : jsstring)
    (f : Chat.Message -> Chat.Message) (l : list Chat.Message) :
  (forall m, Chat.id (f m) = Chat.id m /\ Chat.role (f m) = Chat.role m
             /\ Chat.createdAt (f m) = Chat.createdAt m) ->
  Terms.touched_only aid l (Chat.mapAssistant aid f l).
Proof.
  intros Hf. induction l as [|m l IH]; simpl; constructor; [|exact IH].
  destruct (JS.eqb (Chat.id m) aid) eqn:E.
  - destruct (Hf m) as (I & R & C). repeat split; auto.
    intros N. apply jseqb_eq in E. contradiction.
  - repeat split.
Qed.

Lemma appendChunk_touched (aid : jsstring) (payloads : list jsstring) :
  forall st,
    Terms.touched_only aid (Chat.messages st)
      (Chat.messages
         (fold_left (fun acc p => Chat.appendChunk aid p acc) payloads st))
    /\ Chat.query
         (fold_left (fun acc p => Chat.appendChunk aid p acc) payloads st)
       = Chat.query st.
Proof.
  induction payloads as [|p payloads IH]; intros st; simpl.
  - split; [apply touched_refl | reflexivity].
  - destruct (IH (Chat.appendChunk aid p st)) as [T Q]. split; [|exact Q].
    eapply touched_trans; [|exact T].
    apply mapAssistant_touched. intros m. repeat split.
Qed.

Lemma fillNull_fields (aid : jsstring) (st : Chat.ChatState) :
  Chat.messages (Chat.fillNull aid st) = Chat.messages st
  /\ Chat.query (Chat.fillNull aid st) = Chat.query st.
Proof.
  unfold Chat.fillNull.
  destruct (existsb _ (Chat.messages st)); split; reflexivity.
Qed.

(** The exchange touches only the messages with the assistant id and
    keeps the input field. *)
Lemma exchange_touched (streaming : bool)
    (fetchStream : Fetch (option ReadableStream))
    (fetchJson : Fetch (Body Api.RagResult))
    (aid : jsstring) (payload : RagBody) (st : Chat.ChatState) (w : World) :
  Terms.touched_only aid (Chat.messages st)
    (Chat.messages
       (snd (fst (Chat.exchange streaming fetchStream fetchJson aid payload
                    st w))))
  /\ Chat.query
       (snd (fst (Chat.exchange streaming fetchStream fetchJson aid payload
                    st w))) = Chat.query st.
Proof.
  unfold Chat.exchange. destruct streaming.
  - destruct (ragStream_state fetchStream payload (Chat.appendChunk aid) st w)
      as (payloads & E).
    rewrite E. apply appendChunk_touched.
  - destruct (Api.ragQuery fetchJson payload w) as [[[res|]|m] w1]; simpl.
    + split; [|reflexivity]. apply mapAssistant_touched.
      intros m. repeat split.
    + destruct (fillNull_fields aid st) as [-> ->].
      split; [apply touched_refl | reflexivity].
    + split; [apply touched_refl | reflexivity].
Qed.

Lemma settle_touched (env : Chat.SendEnv) (outcome : Completion unit)
    (st : Chat.ChatState) :
  Terms.touched_only (Chat.assistantMsgId env) (Chat.messages st)
    (Chat.messages (Chat.settle env outcome st))
  /\ Chat.query (Chat.settle env outcome st) = Chat.query st.
Proof.
  destruct outcome as [u|m]; simpl; (split; [|reflexivity]);
    apply mapAssistant_touched; intros x; repeat split.
Qed.

(** Messages whose id is not the one updated come through unchanged. *)
Lemma touched_untouched (aid : jsstring) (l l' : list Chat.Message) :
  Terms.touched_only aid l l' ->
  Forall (fun m => Chat.id m <> aid) l -> l' = l.
Proof.
  induction 1 as [|m m' l l' (_ & _ & _ & E) _ IH]; intros F;
    [reflexivity|].
  inversion F; subst. rewrite (E ltac:(assumption)), IH by assumption.
  reflexivity.
Qed.

(** The state a send ends in, when it passes the guard. *)
Lemma send_unfold (env : Chat.SendEnv)
    (fetchStream : Fetch (option ReadableStream))
    (fetchJson : Fetch (Body Api.RagResult))
    (st st3 : Chat.ChatState) (payload : RagBody) (w : World) :
  Chat.begin env st = Some (st3, payload) ->
  Chat.send env fetchStream fetchJson st w =
  (Chat.setLoading false
     (Chat.settle env
        (fst (fst (Chat.exchange (Chat.stream st) fetchStream fetchJson
                     (Chat.assistantMsgId env) payload st3 w)))
        (snd (fst (Chat.exchange (Chat.stream st) fetchStream fetchJson
                     (Chat.assistantMsgId env) payload st3 w)))),
   snd (Chat.exchange (Chat.stream st) fetchStream fetchJson
          (Chat.assistantMsgId env) payload st3 w)).
Proof.
  intros H. unfold Chat.send. rewrite H.
  destruct (Chat.exchange _ _ _ _ _ _ _) as [[c st4] w1]. reflexivity.
Qed.

End SendFacts.

Section CrashFacts.






Lemma window_fetch_fst {B : Type}
    (server : Request -> Completion (Response B)) (req : Request)
    (w : World) :
  fst (AuthContext.window_fetch server req w) = server req.
Proof.
  unfold AuthContext.window_fetch, AuthContext.intercept, native_fetch.
  destruct (server req) as [res|m]; [|reflexivity].
  destruct (status res =? 401)%N; reflexivity.
Qed.

Lemma begin_some (env : Chat.SendEnv) (st : Chat.ChatState) :
  Chat.disableSubmit st = false ->
  exists st3, Chat.begin env st = Some (st3, Terms.payloadOf st).
Proof.
  intros H. unfold Chat.begin. rewrite H. eexists. reflexivity.
Qed.

(** What the single-response call resolves to, from the answer. *)
Lemma ragQuery_result
    (serverJson : Request -> Completion (Response (Body Api.RagResult)))
    (st : Chat.ChatState) (w : World) :
  Chat.stream st = false ->
  fst (Api.ragQuery (AuthContext.window_fetch serverJson)
         (Terms.payloadOf st) w)
  = match serverJson (Terms.sendRequest st w) with
    | Return res => Api.handleJsonResponse res
    | Throw m => Throw m
    end.
Proof.
  intros Hs. unfold Api.ragQuery, Api.authHeaders, Terms.sendRequest.
  rewrite Hs.
  pose proof (window_fetch_fst serverJson
                {| call := PostRag (Terms.payloadOf st);
                   authorization :=
                     match present (Api.getToken w) with
                     | Some t => Some (lit "Bearer " ++ t)
                     | None => None
                     end |} w) as W.
  destruct (AuthContext.window_fetch serverJson _ w) as [r w1].
  cbn [fst] in W. rewrite W.
  destruct (serverJson _) as [res|m]; reflexivity.
Qed.


End CrashFacts.



(** X7.  A send that passes the guard and does not crash the page
    empties the input field and adds exactly two messages at the end of
    the list.  Position by position every message keeps its id, role
    and creation time, and only messages with the assistant id of the
    send may differ from what they were: the earlier messages, the user
    message with the typed text as it is (not trimmed), and the empty
    placeholder.  So when that id is not already in use, every earlier
    message and the user message come through untouched. *)
Theorem send_appends_two (env : Chat.SendEnv)
    (fetchStream : Fetch (option ReadableStream))
    (fetchJson : Fetch (Body Api.RagResult))
    (st : Chat.ChatState) (w : World) :
  Chat.disableSubmit st = false ->
  Chat.crashed (fst (Chat.send env fetchStream fetchJson st w)) = false ->
  Chat.query (fst (Chat.send env fetchStream fetchJson st w)) = []
  /\ length (Chat.messages (fst (Chat.send env fetchStream fetchJson st w)))
     = length (Chat.messages st) + 2
  /\ Terms.touched_only (Chat.assistantMsgId env)
       (Chat.messages st
        ++ [{| Chat.id := Chat.userMsgId env; Chat.role := Chat.user;
               Chat.text := Chat.query st;
               Chat.createdAt := Chat.userCreatedAt env;
               Chat.meta := None |};
            {| Chat.id := Chat.assistantMsgId env;
               Chat.role := Chat.assistant; Chat.text := [];
               Chat.createdAt := Chat.assistantCreatedAt env;
               Chat.meta := Some Chat.emptyMeta |}])
       (Chat.messages (fst (Chat.send env fetchStream fetchJson st w)))
  /\ (Forall (fun m => Chat.id m <> Chat.assistantMsgId env)
             (Chat.messages st) ->
      Chat.userMsgId env <> Chat.assistantMsgId env ->
      exists a,
        Chat.messages (fst (Chat.send env fetchStream fetchJson st w)) =
          Chat.messages st
          ++ [{| Chat.id := Chat.userMsgId env; Chat.role := Chat.user;
                 Chat.text := Chat.query st;
                 Chat.createdAt := Chat.userCreatedAt env;
                 Chat.meta := None |}; a]
        /\ Chat.id a = Chat.assistantMsgId env
        /\ Chat.role a = Chat.assistant
        /\ Chat.createdAt a = Chat.assistantCreatedAt env).
Proof.
  intros Hd _.
  destruct (Chat.begin env st) as [[st3 payload]|] eqn:B;
    [|unfold Chat.begin in B; rewrite Hd in B; discriminate B].
  rewrite (send_unfold _ _ _ _ _ _ _ B).
  destruct (exchange_touched (Chat.stream st) fetchStream fetchJson
              (Chat.assistantMsgId env) payload st3 w) as [T1 Q1].
  destruct (settle_touched env
              (fst (fst (Chat.exchange (Chat.stream st) fetchStream fetchJson
                           (Chat.assistantMsgId env) payload st3 w)))
              (snd (fst (Chat.exchange (Chat.stream st) fetchStream fetchJson
                           (Chat.assistantMsgId env) payload st3 w))))
    as [T2 Q2].
  pose proof (touched_trans _ _ _ _ T1 T2) as T.
  cbn [fst Chat.setLoading Chat.query Chat.messages].
  rewrite Q2, Q1.
  unfold Chat.begin in B. rewrite Hd in B. injection B as <- _.
  cbn [Chat.query Chat.setQuery]. split; [reflexivity|].
  cbn [Chat.messages Chat.setQuery Chat.setMessages Chat.setLoading] in T.
  split; [|split; [exact T|]].
  - rewrite <- (Forall2_length T), length_app. reflexivity.
  - intros Hf Hu. unfold Terms.touched_only in T.
    apply Forall2_app_inv_l in T as (l1 & l2 & T1' & T2' & E).
    rewrite E.
    rewrite (touched_untouched _ _ _ T1' Hf).
    inversion T2' as [|u u' r r' (_ & _ & _ & Eu) Tr]; subst.
    inversion Tr as [|a a' r2 r2' (Ia & Ra & Ca & _) Tn]; subst.
    inversion Tn; subst.
    rewrite (Eu Hu). exists a'. repeat split; assumption.
Qed.

Lemma send_appends_two_witness :
  Chat.query
    (fst (Chat.send Terms.env2
            (AuthContext.window_fetch (fun _ => Return Spec.streamed))
            (AuthContext.window_fetch (fun _ => Return Spec.timed))
            Terms.talked Spec.signed_in)) = []
  /\ length
       (Chat.messages
          (fst (Chat.send Terms.env2
                  (AuthContext.window_fetch (fun _ => Return Spec.streamed))
                  (AuthContext.window_fetch (fun _ => Return Spec.timed))
                  Terms.talked Spec.signed_in))) = 4
  /\ exists a,
       Chat.messages
         (fst (Chat.send Terms.env2
                 (AuthContext.window_fetch (fun _ => Return Spec.streamed))
                 (AuthContext.window_fetch (fun _ => Return Spec.timed))
                 Terms.talked Spec.signed_in)) =
         Chat.messages Terms.talked
         ++ [{| Chat.id := lit "c001"; Chat.role := Chat.user;
                Chat.text := lit "  And then? ";
                Chat.createdAt := lit "2025-01-01T10:01:00.000Z";
                Chat.meta := None |}; a]
       /\ Chat.id a = lit "c002"
       /\ Chat.role a = Chat.assistant
       /\ Chat.createdAt a = lit "2025-01-01T10:01:00.001Z".
Proof.
  destruct (send_appends_two Terms.env2
              (AuthContext.window_fetch (fun _ => Return Spec.streamed))
              (AuthContext.window_fetch (fun _ => Return Spec.timed))
              Terms.talked Spec.signed_in eq_refl eq_refl)
    as (Q & L & _ & F).
  split; [exact Q|]. split; [exact L|].
  apply F.
  - repeat constructor; vm_compute; discriminate.
  - vm_compute. discriminate.
Defined.

Section SendOutcomeFacts.

Lemma window_fetch_sent {B : Type}
    (server : Request -> Completion (Response B)) (req : Request)
    (w : World) :
  sent (snd (AuthContext.window_fetch server req w)) = sent w ++ [req].
Proof.
  unfold AuthContext.window_fetch, AuthContext.intercept, native_fetch.
  destruct (server req) as [res|m]; [|reflexivity].
  destruct (status res =? 401)%N; reflexivity.
Qed.

Lemma begin_payload (env : Chat.SendEnv) (st st3 : Chat.ChatState)
    (payload : RagBody) :
  Chat.begin env st = Some (st3, payload) -> payload = Terms.payloadOf st.
Proof.
  unfold Chat.begin. destruct (Chat.disableSubmit st); [discriminate|].
  intros [= _ <-]. reflexivity.
Qed.

(** When the exchange throws, the placeholder still has the metadata it
    was created with. *)
Lemma exchange_failure_placeholder (env : Chat.SendEnv)
    (fetchStream : Fetch (option ReadableStream))
    (fetchJson : Fetch (Body Api.RagResult))
    (st st3 : Chat.ChatState) (payload : RagBody) (w : World)
    (streaming : bool) (m : jsstring) (st4 : Chat.ChatState) (w1 : World) :
  Chat.begin env st = Some (st3, payload) ->
  Chat.exchange streaming fetchStream fetchJson (Chat.assistantMsgId env)
    payload st3 w = (Throw m, st4, w1) ->
  exists before a,
    Chat.messages st4 = before ++ [a]
    /\ Chat.id a = Chat.assistantMsgId env
    /\ Chat.meta a = Some Chat.emptyMeta.
Proof.
  intros Hb He.
  destruct (begin_messages _ _ _ _ Hb) as (a0 & Hm & Hi & _ & _ & Hmeta).
  unfold Chat.exchange in He. destruct streaming.
  - destruct (ragStream_state fetchStream payload
                (Chat.appendChunk (Chat.assistantMsgId env)) st3 w)
      as (payloads & E).
    rewrite He in E. cbn [fst snd] in E.
    destruct (appendChunk_fold (Chat.assistantMsgId env) payloads st3 _ a0
                Hm Hi) as (before' & a' & E' & _ & I' & _ & M' & _).
    rewrite <- E in E'. exists before', a'. rewrite M'. auto.
  - destruct (Api.ragQuery fetchJson payload w) as [[[res|]|m'] w'];
      try discriminate He; injection He as _ <- _; eauto.
Qed.

Lemma send_failure (env : Chat.SendEnv)
    (fetchStream : Fetch (option ReadableStream))
    (fetchJson : Fetch (Body Api.RagResult))
    (st : Chat.ChatState) (w : World) (m : jsstring) :
  Chat.disableSubmit st = false ->
  fst (fst (Chat.exchange (Chat.stream st) fetchStream fetchJson
              (Chat.assistantMsgId env) (Terms.payloadOf st)
              (match Chat.begin env st with
               | Some (st3, _) => st3
               | None => st
               end) w)) = Throw m ->
  Terms.shows_error (fst (Chat.send env fetchStream fetchJson st w))
    (if truthy m then m else lit "Failed to generate").
Proof.
  intros Hd He. destruct (begin_some env st Hd) as (st3 & Hb).
  rewrite Hb in He. rewrite (send_unfold _ _ _ _ _ _ _ Hb).
  destruct (Chat.exchange _ _ _ _ _ _ _) as [[c st4] w1] eqn:X.
  cbn [fst snd] in *. subst c.
  destruct (exchange_failure_placeholder _ _ _ _ _ _ _ _ _ _ _ Hb X)
    as (before & a & Hm & Hi & Hmeta).
  unfold Terms.shows_error.
  cbn [Chat.settle Chat.setLoading Chat.setMessages Chat.messages].
  rewrite Hm, (mapAssistant_snoc _ _ _ _ Hi), placeholder_snoc.
  eexists. split; [reflexivity|]. cbn. auto.
Qed.

End SendOutcomeFacts.

(** X8.  How a failed send shows: the placeholder's text becomes
    [Error: ] followed by the failure's message, and its metadata stays
    the empty one it was created with.  The message is the network
    error when the request could not be made.  For a streamed send
    answered without success or without a body it is
    [Streaming failed: <status> <status text>].  For a single-response
    send it is the error of [JSON.parse] when the body is not JSON,
    whatever the status; for an answer without success whose body is
    JSON it is the detail of the body when it has one, and else the
    status text (so also for the body [null]).  [Failed to generate]
    stands in for an empty message. *)
Theorem send_failure_text (env : Chat.SendEnv)
    (serverStream : Request -> Completion (Response (option ReadableStream)))
    (serverJson : Request -> Completion (Response (Body Api.RagResult)))
    (st : Chat.ChatState) (w : World) :
  Chat.disableSubmit st = false ->
  let final :=
    fst (Chat.send env (AuthContext.window_fetch serverStream)
           (AuthContext.window_fetch serverJson) st w) in
  (Chat.stream st = true ->
   forall m, serverStream (Terms.sendRequest st w) = Throw m ->
     Terms.shows_error final (Terms.first_truthy [Some m]
                                (lit "Failed to generate")))
  /\ (Chat.stream st = true ->
      forall res, serverStream (Terms.sendRequest st w) = Return res ->
        ok res = false \/ body res = None ->
        Terms.shows_error final
          (lit "Streaming failed: " ++ Api.decimal (status res)
           ++ lit " " ++ statusText res))
  /\ (Chat.stream st = false ->
      forall m, serverJson (Terms.sendRequest st w) = Throw m ->
        Terms.shows_error final (Terms.first_truthy [Some m]
                                   (lit "Failed to generate")))
  /\ (Chat.stream st = false ->
      forall res m,
        serverJson (Terms.sendRequest st w) = Return res ->
        body res = Malformed m ->
        Terms.shows_error final (Terms.first_truthy [Some m]
                                   (lit "Failed to generate")))
  /\ (Chat.stream st = false ->
      forall res,
        serverJson (Terms.sendRequest st w) = Return res ->
        ok res = false -> body res = JsonNull ->
        Terms.shows_error final
          (Terms.first_truthy [Some (statusText res)]
             (lit "Failed to generate")))
  /\ (Chat.stream st = false ->
      forall res detail data,
        serverJson (Terms.sendRequest st w) = Return res ->
        ok res = false -> body res = JsonObject detail data ->
        Terms.shows_error final
          (Terms.first_truthy [detail; Some (statusText res)]
             (lit "Failed to generate"))).
Proof.
  intros Hd. cbv zeta.
  destruct (begin_some env st Hd) as (st3 & Hb).
  assert (F : forall m,
             fst (fst (Chat.exchange (Chat.stream st)
                         (AuthContext.window_fetch serverStream)
                         (AuthContext.window_fetch serverJson)
                         (Chat.assistantMsgId env) (Terms.payloadOf st)
                         st3 w)) = Throw m ->
             Terms.shows_error
               (fst (Chat.send env (AuthContext.window_fetch serverStream)
                       (AuthContext.window_fetch serverJson) st w))
               (Terms.first_truthy [Some m] (lit "Failed to generate"))).
  { intros m H.
    replace (Terms.first_truthy [Some m] (lit "Failed to generate"))
      with (if truthy m then m else lit "Failed to generate")
      by (unfold Terms.first_truthy, present; destruct (truthy m);
          reflexivity).
    apply send_failure; [exact Hd|]. rewrite Hb. exact H. }
  assert (J : Chat.stream st = false ->
              forall res m,
                serverJson (Terms.sendRequest st w) = Return res ->
                Api.handleJsonResponse res = Throw m ->
                Terms.shows_error
                  (fst (Chat.send env
                          (AuthContext.window_fetch serverStream)
                          (AuthContext.window_fetch serverJson) st w))
                  (Terms.first_truthy [Some m] (lit "Failed to generate"))).
  { intros Hs res m Hr Hh. apply F. rewrite Hs. unfold Chat.exchange.
    pose proof (ragQuery_result serverJson st w Hs) as Q.
    rewrite Hr, Hh in Q.
    destruct (Api.ragQuery (AuthContext.window_fetch serverJson)
                (Terms.payloadOf st) w) as [r w1].
    cbn [fst] in Q. subst r. reflexivity. }
  split; [|split; [|split; [|split; [|split]]]].
  - intros Hs m Hm. apply F. rewrite Hs.
    unfold Chat.exchange, Api.ragStream, Api.authHeaders.
    unfold Terms.sendRequest in Hm. rewrite Hs in Hm.
    pose proof (window_fetch_fst serverStream
                  {| call := PostRagStream (Terms.payloadOf st);
                     authorization :=
                       match present (Api.getToken w) with
                       | Some t => Some (lit "Bearer " ++ t)
                       | None => None
                       end |} w) as W.
    destruct (AuthContext.window_fetch serverStream _ w) as [r w1].
    cbn [fst] in W. rewrite W, Hm. reflexivity.
  - intros Hs res Hr Hbad.
    specialize (F (lit "Streaming failed: " ++ Api.decimal (status res)
                   ++ lit " " ++ statusText res)).
    change (Terms.first_truthy
              [Some (lit "Streaming failed: " ++ Api.decimal (status res)
                     ++ lit " " ++ statusText res)]
              (lit "Failed to generate"))
      with (lit "Streaming failed: " ++ Api.decimal (status res)
            ++ lit " " ++ statusText res) in F.
    apply F. rewrite Hs.
    unfold Chat.exchange, Api.ragStream, Api.authHeaders.
    unfold Terms.sendRequest in Hr. rewrite Hs in Hr.
    pose proof (window_fetch_fst serverStream
                  {| call := PostRagStream (Terms.payloadOf st);
                     authorization :=
                       match present (Api.getToken w) with
                       | Some t => Some (lit "Bearer " ++ t)
                       | None => None
                       end |} w) as W.
    destruct (AuthContext.window_fetch serverStream _ w) as [r w1].
    cbn [fst] in W. rewrite W, Hr.
    destruct Hbad as [-> | Hbody]; [reflexivity|].
    rewrite Hbody. destruct (ok res); reflexivity.
  - intros Hs m Hm. apply F. rewrite Hs. unfold Chat.exchange.
    pose proof (ragQuery_result serverJson st w Hs) as Q. rewrite Hm in Q.
    destruct (Api.ragQuery (AuthContext.window_fetch serverJson)
                (Terms.payloadOf st) w) as [r w1].
    cbn [fst] in Q. subst r. reflexivity.
  - intros Hs res m Hr Hbody. apply (J Hs res m Hr).
    unfold Api.handleJsonResponse. rewrite Hbody. reflexivity.
  - intros Hs res Hr Hok Hbody. apply (J Hs res _ Hr).
    unfold Api.handleJsonResponse. rewrite Hbody, Hok. reflexivity.
  - intros Hs res detail data Hr Hok Hbody.
    replace (Terms.first_truthy [detail; Some (statusText res)]
               (lit "Failed to generate"))
      with (Terms.first_truthy [Some (or_else detail (statusText res))]
              (lit "Failed to generate")).
    + apply (J Hs res _ Hr).
      unfold Api.handleJsonResponse. rewrite Hbody, Hok. reflexivity.
    + unfold Terms.first_truthy, or_else, present.
      destruct detail as [d|]; [destruct (truthy d) eqn:Td|].
      * rewrite Td. reflexivity.
      * destruct (truthy (statusText res)) eqn:Ts; rewrite ?Ts; reflexivity.
      * destruct (truthy (statusText res)) eqn:Ts; rewrite ?Ts; reflexivity.
Qed.

Lemma send_failure_text_witness :
  Terms.shows_error
    (fst (Chat.send Spec.env1
            (AuthContext.window_fetch (fun _ => Return Terms.stream_down))
            (AuthContext.window_fetch (fun _ => Return Terms.query_refused))
            Spec.asking Spec.signed_in))
    (lit "Streaming failed: 500 Internal Server Error")
  /\ Terms.shows_error
       (fst (Chat.send Spec.env1
               (AuthContext.window_fetch (fun _ => Return Terms.stream_down))
               (AuthContext.window_fetch
                  (fun _ => Return Terms.query_refused))
               (Chat.setStream false Spec.asking) Spec.signed_in))
       (lit "Query too long")
  /\ Terms.shows_error
       (fst (Chat.send Spec.env1
               (AuthContext.window_fetch (fun _ => Throw []))
               (AuthContext.window_fetch
                  (fun _ => Return Terms.query_refused))
               Spec.asking Spec.signed_in))
       (lit "Failed to generate")
  /\ Terms.shows_error
       (fst (Chat.send Spec.env1
               (AuthContext.window_fetch (fun _ => Return Terms.stream_down))
               (AuthContext.window_fetch (fun _ => Return Terms.html_answer))
               (Chat.setStream false Spec.asking) Spec.signed_in))
       (lit "Unexpected token < in JSON at position 0")
  /\ Terms.shows_error
       (fst (Chat.send Spec.env1
               (AuthContext.window_fetch (fun _ => Return Terms.stream_down))
               (AuthContext.window_fetch
                  (fun _ => Return Terms.null_refusal))
               (Chat.setStream false Spec.asking) Spec.signed_in))
       (lit "Service Unavailable").
Proof.
  split; [|split; [|split; [|split]]].
  - destruct (send_failure_text Spec.env1
                (fun _ => Return Terms.stream_down)
                (fun _ => Return Terms.query_refused)
                Spec.asking Spec.signed_in eq_refl) as (_ & B & _).
    exact (B eq_refl Terms.stream_down eq_refl (or_introl eq_refl)).
  - destruct (send_failure_text Spec.env1
                (fun _ => Return Terms.stream_down)
                (fun _ => Return Terms.query_refused)
                (Chat.setStream false Spec.asking) Spec.signed_in eq_refl)
      as (_ & _ & _ & _ & _ & D).
    exact (D eq_refl Terms.query_refused _ _ eq_refl eq_refl eq_refl).
  - destruct (send_failure_text Spec.env1
                (fun _ => Throw [])
                (fun _ => Return Terms.query_refused)
                Spec.asking Spec.signed_in eq_refl) as (A & _).
    exact (A eq_refl [] eq_refl).
  - destruct (send_failure_text Spec.env1
                (fun _ => Return Terms.stream_down)
                (fun _ => Return Terms.html_answer)
                (Chat.setStream false Spec.asking) Spec.signed_in eq_refl)
      as (_ & _ & _ & D & _).
    exact (D eq_refl Terms.html_answer _ eq_refl eq_refl).
  - destruct (send_failure_text Spec.env1
                (fun _ => Return Terms.stream_down)
                (fun _ => Return Terms.null_refusal)
                (Chat.setStream false Spec.asking) Spec.signed_in eq_refl)
      as (_ & _ & _ & _ & D & _).
    exact (D eq_refl Terms.null_refusal eq_refl eq_refl eq_refl).
Defined.

(** X9.  A streamed send that runs to the end of its stream leaves in
    the placeholder the payloads delivered to the callback, joined in
    their order of arrival. *)
Theorem send_streams_text (env : Chat.SendEnv)
    (serverStream : Request -> Completion (Response (option ReadableStream)))
    (fetchJson : Fetch (Body Api.RagResult))
    (st : Chat.ChatState) (w : World)
    (res : Response (option ReadableStream)) (strm : ReadableStream) :
  Chat.disableSubmit st = false ->
  Chat.stream st = true ->
  serverStream (Terms.sendRequest st w) = Return res ->
  ok res = true -> body res = Some strm -> failure strm = None ->
  exists a,
    Spec.placeholder
      (Chat.messages
         (fst (Chat.send env (AuthContext.window_fetch serverStream)
                 fetchJson st w))) = Some a
    /\ Chat.id a = Chat.assistantMsgId env
    /\ Chat.text a = concat (Api.delivered strm).
Proof.
  intros Hd Hs Hr Hok Hbody Hf.
  destruct (begin_some env st Hd) as (st3 & Hb).
  destruct (begin_messages _ _ _ _ Hb) as (a0 & Hm & Hi & _ & Ht & _).
  rewrite (send_unfold _ _ _ _ _ _ _ Hb), Hs.
  unfold Chat.exchange, Api.ragStream, Api.authHeaders.
  unfold Terms.sendRequest in Hr. rewrite Hs in Hr.
  pose proof (window_fetch_fst serverStream
                {| call := PostRagStream (Terms.payloadOf st);
                   authorization :=
                     match present (Api.getToken w) with
                     | Some t => Some (lit "Bearer " ++ t)
                     | None => None
                     end |} w) as W.
  destruct (AuthContext.window_fetch serverStream _ w) as [r w1].
  cbn [fst] in W. rewrite W, Hr, Hok, Hbody.
  pose proof (read_loop_no_failure (chunks strm) TextDecoder.init []) as C.
  unfold Api.delivered. rewrite Hf.
  destruct (Api.read_loop TextDecoder.init [] (chunks strm) None)
    as [payloads c].
  cbn [snd fst] in C |- *. subst c.
  destruct (appendChunk_fold (Chat.assistantMsgId env) payloads st3 _ a0
              Hm Hi) as (before' & a' & E' & _ & I' & _ & _ & T').
  cbn [Chat.settle Chat.setLoading Chat.setMessages Chat.messages].
  rewrite E', (mapAssistant_snoc _ _ _ _ I'), placeholder_snoc.
  eexists. split; [reflexivity|]. cbn. rewrite T', Ht. auto.
Qed.

Lemma send_streams_text_witness :
  exists a,
    Spec.placeholder
      (Chat.messages
         (fst (Chat.send Spec.env1
                 (AuthContext.window_fetch (fun _ => Return Spec.streamed))
                 (AuthContext.window_fetch (fun _ => Return Spec.timed))
                 Spec.asking Spec.signed_in))) = Some a
    /\ Chat.id a = lit "a41f"
    /\ Chat.text a = lit "foobar".
Proof.
  apply (send_streams_text Spec.env1 (fun _ => Return Spec.streamed) _
           Spec.asking Spec.signed_in Spec.streamed
           {| chunks := [Spec.frame "data: foo"; Spec.frame "data: bar";
                         Spec.frame "data: [DONE]"];
              failure := None |}); reflexivity.
Defined.

(** X10.  A send that passes the guard makes exactly one request: to
    the streaming endpoint when [stream] is set and to the
    single-response endpoint otherwise, carrying the typed text as it
    is, the settings of the page and the session id, with the stored
    token as bearer when there is one. *)
Theorem send_dispatches_once (env : Chat.SendEnv)
    (serverStream : Request -> Completion (Response (option ReadableStream)))
    (serverJson : Request -> Completion (Response (Body Api.RagResult)))
    (st : Chat.ChatState) (w : World) :
  Chat.disableSubmit st = false ->
  sent (snd (Chat.send env (AuthContext.window_fetch serverStream)
               (AuthContext.window_fetch serverJson) st w))
  = sent w ++ [Terms.sendRequest st w].
Proof.
  intros Hd. destruct (begin_some env st Hd) as (st3 & Hb).
  rewrite (send_unfold _ _ _ _ _ _ _ Hb). cbn [snd].
  unfold Chat.exchange, Terms.sendRequest.
  destruct (Chat.stream st).
  - unfold Api.ragStream, Api.authHeaders.
    pose proof (window_fetch_sent serverStream
                  {| call := PostRagStream (Terms.payloadOf st);
                     authorization :=
                       match present (Api.getToken w) with
                       | Some t => Some (lit "Bearer " ++ t)
                       | None => None
                       end |} w) as W.
    destruct (AuthContext.window_fetch serverStream _ w) as [[res|m] w1];
      cbn [snd] in W; [|exact W].
    destruct (if ok res then body res else None) as [strm|]; [|exact W].
    destruct (Api.read_loop _ _ _ _). exact W.
  - unfold Api.ragQuery, Api.authHeaders.
    pose proof (window_fetch_sent serverJson
                  {| call := PostRag (Terms.payloadOf st);
                     authorization :=
                       match present (Api.getToken w) with
                       | Some t => Some (lit "Bearer " ++ t)
                       | None => None
                       end |} w) as W.
    destruct (AuthContext.window_fetch serverJson _ w) as [[res|m] w1];
      cbn [snd] in W; [|exact W].
    destruct (Api.handleJsonResponse res) as [[r|]|m]; exact W.
Qed.

Lemma send_dispatches_once_witness :
  sent (snd (Chat.send Spec.env1
               (AuthContext.window_fetch (fun _ => Return Spec.streamed))
               (AuthContext.window_fetch (fun _ => Return Spec.timed))
               Spec.asking Spec.signed_in))
  = sent Spec.signed_in ++ [Terms.sendRequest Spec.asking Spec.signed_in].
Proof. apply send_dispatches_once. reflexivity. Defined.

(** ** The effects that run when the chat page mounts *)

(** X11.  The hydration effect does nothing, and asks nothing, while the
    page has no session id.  With a session id it always ends with the
    loading indicator off, and it keeps the message list as it was when
    the history call fails and when the history holds no record. *)
Theorem hydration_swallows_failures
    (fetch : Fetch (Body Api.History)) (clock : nat -> jsstring)
    (st : Chat.ChatState) (w : World) :
  (present (Chat.sessionId st) = None ->
   Chat.hydration fetch clock st w = (st, w))
  /\ (forall sid, present (Chat.sessionId st) = Some sid ->
        Chat.hydrating (fst (Chat.hydration fetch clock st w)) = false
        /\ snd (Chat.hydration fetch clock st w)
           = snd (Api.queryHistory fetch 0 50 (Some sid) w)
        /\ (forall m,
              fst (Api.queryHistory fetch 0 50 (Some sid) w) = Throw m ->
              Chat.messages (fst (Chat.hydration fetch clock st w))
              = Chat.messages st)
        /\ (forall hist,
              fst (Api.queryHistory fetch 0 50 (Some sid) w) = Return hist ->
              Chat.hydrate clock hist = [] ->
              Chat.messages (fst (Chat.hydration fetch clock st w))
              = Chat.messages st)).
Proof.
  unfold Chat.hydration. split.
  - intros ->. reflexivity.
  - intros sid ->.
    destruct (Api.queryHistory fetch 0 50 (Some sid) w) as [[hist|m] w1];
      cbn [fst snd].
    + destruct (Chat.hydrate clock hist) as [|x l] eqn:E.
      * repeat split; intros; try discriminate; reflexivity.
      * repeat split; intros; try discriminate.
        match goal with H : Return _ = Return _ |- _ =>
          injection H as <- end.
        congruence.
    + repeat split; intros; try discriminate; reflexivity.
Qed.

Lemma hydration_swallows_failures_witness :
  Chat.hydration (native_fetch (fun _ => Throw (lit "Failed to fetch")))
    (fun _ => lit "now") Spec.in_flight Spec.signed_in
  = (Spec.in_flight, Spec.signed_in)
  /\ Chat.hydrating
       (fst (Chat.hydration
               (native_fetch (fun _ => Throw (lit "Failed to fetch")))
               (fun _ => lit "now")
               (ChatSession.setSessionId (Some (lit "tab-1")) Chat.initial)
               Spec.signed_in)) = false
  /\ Chat.messages
       (fst (Chat.hydration
               (native_fetch (fun _ => Throw (lit "Failed to fetch")))
               (fun _ => lit "now")
               (ChatSession.setSessionId (Some (lit "tab-1")) Chat.initial)
               Spec.signed_in)) = [].
Proof.
  split.
  - apply hydration_swallows_failures. reflexivity.
  - destruct (hydration_swallows_failures
                (native_fetch (fun _ => Throw (lit "Failed to fetch")))
                (fun _ => lit "now")
                (ChatSession.setSessionId (Some (lit "tab-1")) Chat.initial)
                Spec.signed_in) as [_ B].
    destruct (B (lit "tab-1") eq_refl) as (B1 & _ & B3 & _).
    split; [exact B1|]. exact (B3 (lit "Failed to fetch") eq_refl).
Defined.

Section SessionFacts.

Lemma present_truthy (a : option jsstring) (s : jsstring) :
  present a = Some s -> truthy s = true /\ a = Some s.
Proof.
  unfold present. destruct a as [x|]; [|discriminate].
  destruct (truthy x) eqn:T; [|discriminate].
  intros [= <-]. auto.
Qed.

Lemma present_of_truthy (s : jsstring) :
  truthy s = true -> present (Some s) = Some s.
Proof. unfold present. intros ->. reflexivity. Qed.

End SessionFacts.

(** X12.  The session id of a tab.  After the effect the page always
    has a non-empty session id, so hydration can run.  When the tab's
    storage works, the id is the one stored, and running the effect
    again (a reload of the tab) gives the same id and leaves the storage
    alone, whatever ids the generator would hand out. *)
Theorem session_id_kept (uuid uuid' : nat -> jsstring)
    (st st' : Chat.ChatState) (ss : ChatSession.TabStorage) :
  (forall n, truthy (uuid n) = true) ->
  (exists sid,
      Chat.sessionId (fst (ChatSession.initSession uuid st ss)) = Some sid
      /\ present (Some sid) = Some sid)
  /\ (ChatSession.denied ss = false -> ChatSession.full ss = false ->
      ChatSession.stored (snd (ChatSession.initSession uuid st ss))
        = Chat.sessionId (fst (ChatSession.initSession uuid st ss))
      /\ ChatSession.initSession uuid' st'
           (snd (ChatSession.initSession uuid st ss))
         = (ChatSession.setSessionId
              (Chat.sessionId (fst (ChatSession.initSession uuid st ss))) st',
            snd (ChatSession.initSession uuid st ss))).
Proof.
  intros U. unfold ChatSession.initSession. split.
  - destruct (ChatSession.denied ss).
    + exists (uuid 0). split; [reflexivity | apply present_of_truthy, U].
    + destruct (present (ChatSession.stored ss)) as [sid|] eqn:P.
      * exists sid. split; [reflexivity|].
        apply present_of_truthy. apply (present_truthy _ _ P).
      * destruct (ChatSession.full ss);
          eexists; (split; [reflexivity | apply present_of_truthy, U]).
  - intros Hd Hf. rewrite Hd, Hf.
    destruct (present (ChatSession.stored ss)) as [sid|] eqn:P.
    + cbn [fst snd Chat.sessionId ChatSession.setSessionId].
      rewrite ?Hd, ?Hf, ?P. destruct (present_truthy _ _ P) as [_ E].
      rewrite E. split; reflexivity.
    + cbn [fst snd Chat.sessionId ChatSession.setSessionId
           ChatSession.stored ChatSession.denied ChatSession.full].
      rewrite ?Hd, ?Hf, (present_of_truthy _ (U 0)). split; reflexivity.
Qed.

Lemma session_id_kept_witness :
  ChatSession.initSession (fun _ => lit "second")
    (Chat.setQuery (lit "x") Chat.initial)
    (snd (ChatSession.initSession (fun _ => lit "first") Chat.initial
            {| ChatSession.stored := None; ChatSession.denied := false;
               ChatSession.full := false |}))
  = (ChatSession.setSessionId (Some (lit "first"))
       (Chat.setQuery (lit "x") Chat.initial),
     {| ChatSession.stored := Some (lit "first");
        ChatSession.denied := false; ChatSession.full := false |}).
Proof.
  destruct (session_id_kept (fun _ => lit "first") (fun _ => lit "second")
              Chat.initial (Chat.setQuery (lit "x") Chat.initial)
              {| ChatSession.stored := None; ChatSession.denied := false;
                 ChatSession.full := false |} (fun _ => eq_refl))
    as [_ B].
  destruct (B eq_refl eq_refl) as [_ B2]. exact B2.
Defined.

(** ** More on the auth session *)

(** X13.  The token store.  With the storage available, reading after a
    write returns the token written, a write of no token or of the empty
    string clears it, and the last write wins.  With the storage
    unavailable, a write changes nothing and a read returns nothing.
    A write never touches the provider's state or the request log. *)
Theorem token_store_round_trip (t t' : option jsstring) (w : World) :
  (localStorage w <> None ->
   Api.getToken (Api.setToken t w) = present t)
  /\ (localStorage w = None ->
      Api.setToken t w = w /\ Api.getToken w = None)
  /\ Api.setToken t (Api.setToken t' w) = Api.setToken t w
  /\ auth (Api.setToken t w) = auth w
  /\ sent (Api.setToken t w) = sent w.
Proof.
  unfold Api.getToken, Api.setToken. destruct w as [[item|] a s]; simpl.
  - split; [reflexivity|]. split; [discriminate|]. repeat split.
  - split; [intros N; contradiction|]. repeat split.
Qed.

Lemma token_store_round_trip_witness :
  Api.getToken (Api.setToken (Some (lit "tok1")) Spec.signed_in)
    = Some (lit "tok1")
  /\ Api.getToken (Api.setToken (Some []) Spec.signed_in) = None
  /\ Api.setToken (Some (lit "tok1")) Terms.no_storage = Terms.no_storage.
Proof.
  split; [|split].
  - destruct (token_store_round_trip (Some (lit "tok1")) None Spec.signed_in)
      as (A & _).
    apply A. discriminate.
  - destruct (token_store_round_trip (Some []) None Spec.signed_in)
      as (A & _).
    apply A. discriminate.
  - destruct (token_store_round_trip (Some (lit "tok1")) None
                Terms.no_storage) as (_ & B & _).
    apply B. reflexivity.
Defined.

Section InterceptFacts.

Lemma logout_idempotent (w : World) :
  AuthContext.logout (AuthContext.logout w) = AuthContext.logout w.
Proof.
  unfold AuthContext.logout, AuthContext.setUser, AuthContext.setTok,
    Api.setToken. simpl. destruct (localStorage w); reflexivity.
Qed.

End InterceptFacts.

(** X14.  The wrapper installed over [fetch] observes and never
    swallows: the caller gets whatever the wrapped call gave, a
    response or a rejection.  Unless the response has status 401 the
    world is left exactly as the wrapped call left it.  Wrapping a
    wrapped [fetch] again changes nothing, so wrappers left behind by a
    re-initialisation do not compound. *)
Theorem intercept_observes (B : Type) (orig : Fetch B) (req : Request)
    (w : World) :
  fst (AuthContext.intercept orig req w) = fst (orig req w)
  /\ ((forall res, fst (orig req w) = Return res -> status res <> 401%N) ->
      AuthContext.intercept orig req w = orig req w)
  /\ AuthContext.intercept (AuthContext.intercept orig) req w
     = AuthContext.intercept orig req w.
Proof.
  unfold AuthContext.intercept.
  destruct (orig req w) as [[res|m] w1]; cbn [fst].
  - destruct (N.eqb_spec (status res) 401) as [E|E].
    + split; [reflexivity|]. split.
      * intros H. exfalso. exact (H res eq_refl E).
      * apply N.eqb_eq in E. rewrite E, logout_idempotent. reflexivity.
    + split; [reflexivity|]. split; [reflexivity|].
      apply N.eqb_neq in E. rewrite E. reflexivity.
  - repeat split.
Qed.

Lemma intercept_observes_witness :
  AuthContext.intercept (native_fetch (fun _ => Return Spec.granted))
    (Spec.loginRequest (lit "a@b.com") (lit "pw")) Spec.signed_in
  = native_fetch (fun _ => Return Spec.granted)
      (Spec.loginRequest (lit "a@b.com") (lit "pw")) Spec.signed_in.
Proof.
  destruct (intercept_observes _
              (native_fetch (fun _ => Return Spec.granted))
              (Spec.loginRequest (lit "a@b.com") (lit "pw")) Spec.signed_in)
    as (_ & B & _).
  apply B. intros res [= <-]. discriminate.
Defined.

(** X15.  After a 401 answer to any call made through the installed
    wrapper, the route guard sends the user to the login page and the
    next request carries no [Authorization] header. *)
Theorem unauthorized_redirects (B : Type)
    (server : Request -> Completion (Response B)) (req : Request)
    (w : World) (res : Response B) :
  server req = Return res -> status res = 401%N ->
  App.RequireAuth (snd (AuthContext.window_fetch server req w))
    = App.NavigateLogin
  /\ Api.authHeaders (snd (AuthContext.window_fetch server req w)) = None.
Proof.
  intros Hs H. rewrite (window_fetch_401 _ _ _ _ Hs H).
  unfold App.RequireAuth, Api.authHeaders, Api.getToken,
    AuthContext.logout. simpl.
  destruct (localStorage w); split; reflexivity.
Qed.

Lemma unauthorized_redirects_witness :
  App.RequireAuth Spec.signed_in = App.Children
  /\ App.RequireAuth
       (snd (AuthContext.window_fetch (fun _ => Return Spec.unauthorized)
               (Spec.loginRequest (lit "a@b.com") (lit "pw"))
               Spec.signed_in)) = App.NavigateLogin
  /\ Api.authHeaders
       (snd (AuthContext.window_fetch (fun _ => Return Spec.unauthorized)
               (Spec.loginRequest (lit "a@b.com") (lit "pw"))
               Spec.signed_in)) = None.
Proof.
  split; [reflexivity|].
  apply (unauthorized_redirects _ (fun _ => Return Spec.unauthorized) _ _
           Spec.unauthorized); reflexivity.
Defined.

(** X16.  Signup has the contract of login: given the same answer from
    its endpoint, it returns the same boolean and leaves the same stored
    token, session token and user; and the one request it sends carries
    the profile, with the model-provider fields as they were passed, and
    no [Authorization] header. *)
Theorem signup_like_login
    (server server' : Request -> Completion (Response (Body Api.LoginData)))
    (email username password : jsstring)
    (llm_provider llm_model : option jsstring) (w : World) :
  server {| call := PostSignup email username password
                      llm_provider llm_model;
            authorization := None |}
  = server' (Spec.loginRequest email password) ->
  fst (AuthContext.signup (AuthContext.window_fetch server)
         email username password llm_provider llm_model w)
  = fst (AuthContext.login (AuthContext.window_fetch server')
           email password w)
  /\ Spec.same_session
       (snd (AuthContext.login (AuthContext.window_fetch server')
               email password w))
       (snd (AuthContext.signup (AuthContext.window_fetch server)
               email username password llm_provider llm_model w))
  /\ sent (snd (AuthContext.signup (AuthContext.window_fetch server)
                  email username password llm_provider llm_model w))
     = sent w ++ [{| call := PostSignup email username password
                               llm_provider llm_model;
                     authorization := None |}].
Proof.
  intros H.
  unfold AuthContext.signup, AuthContext.login, Api.signup, Api.login,
    Spec.loginRequest, Spec.same_session in *.
  unfold AuthContext.window_fetch, AuthContext.intercept, native_fetch.
  rewrite <- H.
  destruct (server _) as [res|m]; [|repeat split].
  destruct (status res =? 401)%N;
    (destruct (Api.handleJsonResponse res) as [[data|]|m]; [|repeat split..]);
    (destruct (present (Api.access_token data)); repeat split).
Qed.

Lemma signup_like_login_witness :
  fst (AuthContext.signup
         (AuthContext.window_fetch (fun _ => Return Spec.granted))
         (lit "a@b.com") (lit "alice") (lit "pw")
         (Some (lit "openai")) None Spec.signed_out) = true
  /\ sent (snd (AuthContext.signup
                  (AuthContext.window_fetch (fun _ => Return Spec.granted))
                  (lit "a@b.com") (lit "alice") (lit "pw")
                  (Some (lit "openai")) None Spec.signed_out))
     = [{| call := PostSignup (lit "a@b.com") (lit "alice") (lit "pw")
                     (Some (lit "openai")) None;
           authorization := None |}].
Proof.
  destruct (signup_like_login (fun _ => Return Spec.granted)
              (fun _ => Return Spec.granted)
              (lit "a@b.com") (lit "alice") (lit "pw")
              (Some (lit "openai")) None Spec.signed_out eq_refl)
    as (A & _ & C).
  split; [rewrite A; reflexivity | exact C].
Defined.

Section GrantedFacts.

(** The world after a login that the endpoint granted. *)
Lemma login_granted
    (server : Request -> Completion (Response (Body Api.LoginData)))
    (email password : jsstring) (w : World)
    (res : Response (Body Api.LoginData)) (data : Api.LoginData)
    (tok : jsstring) :
  server (Spec.loginRequest email password) = Return res ->
  Api.handleJsonResponse res = Return (Some data) ->
  present (Api.access_token data) = Some tok ->
  AuthContext.login (AuthContext.window_fetch server) email password w
  = (true,
     {| localStorage := match localStorage w with
                        | Some _ => Some (Some tok)
                        | None => None
                        end;
        auth := {| token := Some tok; user := Api.login_user data |};
        sent := sent w ++ [Spec.loginRequest email password] |}).
Proof.
  intros Hs Hh Hp. unfold AuthContext.login, Api.login.
  fold (Spec.loginRequest email password).
  rewrite window_fetch_other
    by (rewrite Hs; apply ok_not_401; exact (handle_return_ok _ _ Hh)).
  rewrite Hs, Hh, Hp.
  unfold AuthContext.setUser, AuthContext.setTok, Api.setToken. cbn.
  rewrite Hp. reflexivity.
Qed.

End GrantedFacts.

(** X17.  What a granted login gives.  The login request itself goes
    out without an [Authorization] header; afterwards the route guard
    lets the user in.  With the storage available, later requests carry
    [Bearer <token>], and after a reload of the tab the guard still lets
    the user in, although the user record is gone.  With the storage
    unavailable, later requests carry no [Authorization] header and a
    reload sends the user back to the login page. *)
Theorem login_then_authorized
    (server : Request -> Completion (Response (Body Api.LoginData)))
    (email password : jsstring) (w : World)
    (res : Response (Body Api.LoginData)) (data : Api.LoginData)
    (tok : jsstring) :
  server (Spec.loginRequest email password) = Return res ->
  Api.handleJsonResponse res = Return (Some data) ->
  present (Api.access_token data) = Some tok ->
  let w' :=
    snd (AuthContext.login (AuthContext.window_fetch server)
           email password w) in
  sent w' = sent w ++ [{| call := PostLogin email password;
                          authorization := None |}]
  /\ App.RequireAuth w' = App.Children
  /\ (localStorage w <> None ->
      Api.authHeaders w' = Some (lit "Bearer " ++ tok)
      /\ App.RequireAuth (App.reload w') = App.Children
      /\ user (auth (App.reload w')) = None)
  /\ (localStorage w = None ->
      Api.authHeaders w' = None
      /\ App.RequireAuth (App.reload w') = App.NavigateLogin).
Proof.
  intros Hs Hh Hp. cbv zeta. rewrite (login_granted _ _ _ _ _ _ _ Hs Hh Hp).
  destruct (present_truthy _ _ Hp) as [T _].
  unfold App.RequireAuth, App.reload, AuthContext.mount, Api.authHeaders,
    Api.getToken, AuthContext.setUser, AuthContext.setTok, present. cbn.
  rewrite ?T.
  split; [reflexivity|]. split; [reflexivity|]. split.
  - intros N. destruct (localStorage w); [|contradiction]. cbn.
    rewrite ?T. repeat split.
  - intros ->. cbn. split; reflexivity.
Qed.

Lemma login_then_authorized_witness :
  Api.authHeaders
    (snd (AuthContext.login
            (AuthContext.window_fetch (fun _ => Return Spec.granted))
            (lit "a@b.com") (lit "pw") Spec.signed_out))
  = Some (lit "Bearer tok1")
  /\ App.RequireAuth
       (App.reload
          (snd (AuthContext.login
                  (AuthContext.window_fetch (fun _ => Return Spec.granted))
                  (lit "a@b.com") (lit "pw") Terms.no_storage)))
     = App.NavigateLogin.
Proof.
  split.
  - destruct (login_then_authorized (fun _ => Return Spec.granted)
                (lit "a@b.com") (lit "pw") Spec.signed_out Spec.granted
                {| Api.access_token := Some (lit "tok1");
                   Api.login_user := Some Spec.alice |} (lit "tok1")
                eq_refl eq_refl eq_refl) as (_ & _ & C & _).
    destruct C as (C1 & _); [discriminate | exact C1].
  - destruct (login_then_authorized (fun _ => Return Spec.granted)
                (lit "a@b.com") (lit "pw") Terms.no_storage Spec.granted
                {| Api.access_token := Some (lit "tok1");
                   Api.login_user := Some Spec.alice |} (lit "tok1")
                eq_refl eq_refl eq_refl) as (_ & _ & _ & D).
    destruct D as (_ & D2); [reflexivity | exact D2].
Defined.

Section AuthPageFacts.

Lemma login_true_token (fetch : Fetch (Body Api.LoginData))
    (email password : jsstring) (w : World) :
  fst (AuthContext.login fetch email password w) = true ->
  App.RequireAuth (snd (AuthContext.login fetch email password w))
  = App.Children.
Proof.
  unfold AuthContext.login.
  destruct (Api.login fetch email password w) as [[data|m] w1];
    [|discriminate].
  destruct (present (Api.access_token data)) as [t|] eqn:P; [|discriminate].
  intros _. destruct (present_truthy _ _ P) as [T _].
  unfold App.RequireAuth, present. cbn. rewrite T. reflexivity.
Qed.

Lemma signup_true_token (fetch : Fetch (Body Api.LoginData))
    (email username password : jsstring) (a b : option jsstring)
    (w : World) :
  fst (AuthContext.signup fetch email username password a b w) = true ->
  App.RequireAuth (snd (AuthContext.signup fetch email username password
                          a b w))
  = App.Children.
Proof.
  unfold AuthContext.signup.
  destruct (Api.signup fetch email username password a b w)
    as [[data|m] w1]; [|discriminate].
  destruct (present (Api.access_token data)) as [t|] eqn:P; [|discriminate].
  intros _. destruct (present_truthy _ _ P) as [T _].
  unfold App.RequireAuth, present. cbn. rewrite T. reflexivity.
Qed.

End AuthPageFacts.

(** X18.  Submitting the auth form always ends with the form no longer
    loading, and in one of two ways.  Either the page has navigated to
    [/chat] with no error shown, and then the route guard lets the user
    in; or the page stays where it was and shows [Invalid credentials]
    in login mode and [Signup failed] in signup mode.  The fallback text
    [Authentication error] is never shown. *)
Theorem onSubmit_outcome (fetch : Fetch (Body Api.LoginData))
    (email username password : jsstring) (st : AuthPage.PageState)
    (w : World) :
  let st' := fst (AuthPage.onSubmit fetch email username password st w) in
  let w' := snd (AuthPage.onSubmit fetch email username password st w) in
  AuthPage.loading st' = false
  /\ ((AuthPage.location st' = lit "/chat" /\ AuthPage.error st' = []
       /\ App.RequireAuth w' = App.Children)
      \/ (AuthPage.location st' = AuthPage.location st
          /\ AuthPage.error st' =
               match AuthPage.mode st with
               | AuthPage.login_mode => lit "Invalid credentials"
               | AuthPage.signup_mode => lit "Signup failed"
               end)).
Proof.
  cbv zeta. unfold AuthPage.onSubmit, AuthPage.attempt.
  destruct (AuthPage.mode st).
  - pose proof (login_true_token fetch email password w) as T.
    destruct (AuthContext.login fetch email password w) as [[|] w1];
      cbn in *.
    + split; [reflexivity|]. left. repeat split. apply T. reflexivity.
    + split; [reflexivity|]. right. split; reflexivity.
  - pose proof (signup_true_token fetch email username password
                  (present (Some (AuthPage.provider st)))
                  (present (Some (AuthPage.model st))) w) as T.
    destruct (AuthContext.signup fetch email username password _ _ w)
      as [[|] w1]; cbn in *.
    + split; [reflexivity|]. left. repeat split. apply T. reflexivity.
    + split; [reflexivity|]. right. split; reflexivity.
Qed.

Section SessionsFacts.

Lemma existsb_eqb_In (v : jsstring) (s : list jsstring) :
  existsb (JS.eqb v) s = true <-> In v s.
Proof.
  rewrite existsb_exists. split.
  - intros (x & Hx & E). apply jseqb_eq in E. subst. exact Hx.
  - intros H. exists v. split; [exact H | apply jseqb_refl].
Qed.

Lemma add_spec (s : list jsstring) (v x : jsstring) :
  In x (HistoryPage.add s v) <-> In x s \/ x = v.
Proof.
  unfold HistoryPage.add. destruct (existsb (JS.eqb v) s) eqn:E.
  - apply existsb_eqb_In in E. split; [auto|].
    intros [H| ->]; assumption.
  - rewrite in_app_iff. simpl. intuition.
Qed.

Lemma add_NoDup (s : list jsstring) (v : jsstring) :
  NoDup s -> NoDup (HistoryPage.add s v).
Proof.
  intros N. unfold HistoryPage.add.
  destruct (existsb (JS.eqb v) s) eqn:E; [exact N|].
  apply NoDup_rev in N. rewrite <- (rev_involutive (s ++ [v])).
  apply NoDup_rev. rewrite rev_app_distr. simpl. constructor; [|exact N].
  intros H. apply in_rev in H. apply existsb_eqb_In in H. congruence.
Qed.

Lemma sessions_fold (items : list HistoryPage.QueryItem) :
  forall s,
    NoDup s ->
    NoDup (fold_left
             (fun s q =>
                match present (HistoryPage.session_id q) with
                | Some v => HistoryPage.add s v
                | None => s
                end) items s)
    /\ forall x,
         In x (fold_left
                 (fun s q =>
                    match present (HistoryPage.session_id q) with
                    | Some v => HistoryPage.add s v
                    | None => s
                    end) items s)
         <-> In x s
             \/ exists q, In q items
                          /\ present (HistoryPage.session_id q) = Some x.
Proof.
  induction items as [|q items IH]; intros s N; simpl.
  - split; [exact N|]. intros x. split; [auto|].
    intros [H|(q & [] & _)]. exact H.
  - destruct (present (HistoryPage.session_id q)) as [v|] eqn:P.
    + destruct (IH (HistoryPage.add s v) (add_NoDup _ _ N)) as [N' M].
      split; [exact N'|]. intros x. rewrite M, add_spec. split.
      * intros [[H| ->]|(q' & Hq' & E)]; [auto| |].
        -- right. exists q. auto.
        -- right. exists q'. auto.
      * intros [H|(q' & [<-|Hq'] & E)]; [auto| |].
        -- left. right. congruence.
        -- right. exists q'. auto.
    + destruct (IH s N) as [N' M]. split; [exact N'|].
      intros x. rewrite M. split.
      * intros [H|(q' & Hq' & E)]; [auto|]. right. exists q'. auto.
      * intros [H|(q' & [<-|Hq'] & E)]; [auto|congruence|].
        right. exists q'. auto.
Qed.

End SessionsFacts.

(** X19.  The session list of the history page holds each session id
    once, and holds exactly the non-empty session ids that occur among
    the records. *)
Theorem sessions_distinct (items : list HistoryPage.QueryItem) :
  NoDup (HistoryPage.sessions items)
  /\ forall x,
       In x (HistoryPage.sessions items)
       <-> exists q, In q items
                     /\ present (HistoryPage.session_id q) = Some x.
Proof.
  destruct (sessions_fold items [] (NoDup_nil _)) as [N M].
  split; [exact N|]. intros x. unfold HistoryPage.sessions.
  rewrite M. simpl. tauto.
Qed.

(** ** Message ids after hydration *)
Section IdFacts.

Lemma suffixed_inj (a b : jsstring) (r r' : Chat.Role) :
  a ++ Spec.suffix r = b ++ Spec.suffix r' -> a = b /\ r = r'.
Proof.
  intros E. apply (f_equal (@rev codeunit)) in E.
  rewrite !rev_app_distr in E.
  destruct r, r'; simpl in E; injection E as E; try discriminate;
    apply (f_equal (@rev codeunit)) in E; rewrite !rev_involutive in E;
    auto.
Qed.

Lemma contribution_NoDup (q : Api.QueryItem) (g : list Chat.Message) :
  Spec.contribution q g -> NoDup (map Chat.id g).
Proof.
  unfold Spec.contribution, Spec.user_message_of, Spec.assistant_message_of.
  destruct g as [|u [|a [|x g]]]; simpl; try tauto.
  - intros _. repeat constructor. simpl. tauto.
  - intros (_ & (Hi & _) & (r & _ & Hi' & _)).
    repeat constructor; simpl; [|tauto].
    intros [E|[]]. rewrite Hi, Hi' in E.
    change (lit ":a") with (Spec.suffix Chat.assistant) in E.
    change (lit ":u") with (Spec.suffix Chat.user) in E.
    apply suffixed_inj in E as [_ E]. discriminate E.
Qed.

Lemma groups_NoDup (items : list Api.QueryItem)
    (groups : list (list Chat.Message)) :
  Forall2 Spec.contribution items groups ->
  NoDup (map Api.q_id items) ->
  NoDup (map Chat.id (concat groups)).
Proof.
  induction 1 as [|q g items groups Hq F IH]; simpl; intros N;
    [constructor|].
  inversion N as [|x l Hx N']; subst.
  rewrite map_app. apply NoDup_app.
  - exact (contribution_NoDup _ _ Hq).
  - exact (IH N').
  - intros i Hi Hi'. apply in_map_iff in Hi as (m & <- & Hm).
    apply in_map_iff in Hi' as (m' & E & Hm').
    destruct (groups_ids _ _ _ F Hm') as (q' & Hq' & E').
    rewrite (contribution_ids _ _ _ Hq Hm), E' in E.
    apply suffixed_inj in E as [E _].
    apply Hx. apply in_map_iff. exists q'. split; assumption.
Qed.

End IdFacts.

(** X20.  Hydrated messages have pairwise distinct ids whenever the
    records have pairwise distinct ids: the role suffixes keep the two
    messages of a record apart and never make two records collide. *)
Theorem hydrated_ids_distinct (clock : nat -> jsstring)
    (records : list Api.QueryItem) :
  NoDup (map Api.q_id records) ->
  NoDup (map Chat.id (Chat.hydrate clock (Spec.history records))).
Proof.
  intros N. unfold Chat.hydrate, Spec.history. cbn [Api.queries].
  destruct (hydrate_loop_groups clock (rev records) 0) as (groups & E & F).
  rewrite E. apply (groups_NoDup _ _ F).
  rewrite map_rev. apply NoDup_rev. exact N.
Qed.

Lemma hydrated_ids_distinct_witness :
  NoDup (map Chat.id
           (Chat.hydrate (fun _ => lit "now")
              (Spec.history [Spec.timeless; Spec.silent; Spec.answered]))).
Proof.
  apply hydrated_ids_distinct.
  repeat constructor; vm_compute; intuition discriminate.
Defined.



(** X22.  When reading the stream fails before the sentinel came, the
    text streamed so far is not kept: the placeholder shows the error
    text of the read failure. *)
Theorem send_read_failure (env : Chat.SendEnv)
    (serverStream : Request -> Completion (Response (option ReadableStream)))
    (fetchJson : Fetch (Body Api.RagResult))
    (st : Chat.ChatState) (w : World)
    (res : Response (option ReadableStream)) (strm : ReadableStream)
    (m : jsstring) :
  Chat.disableSubmit st = false ->
  Chat.stream st = true ->
  serverStream (Terms.sendRequest st w) = Return res ->
  ok res = true -> body res = Some strm ->
  snd (Api.read_loop TextDecoder.init [] (chunks strm) (failure strm))
    = Throw m ->
  Terms.shows_error
    (fst (Chat.send env (AuthContext.window_fetch serverStream)
            fetchJson st w))
    (Terms.first_truthy [Some m] (lit "Failed to generate")).
Proof.
  intros Hd Hs Hr Hok Hbody Hf.
  replace (Terms.first_truthy [Some m] (lit "Failed to generate"))
    with (if truthy m then m else lit "Failed to generate")
    by (unfold Terms.first_truthy, present; destruct (truthy m);
        reflexivity).
  apply send_failure; [exact Hd|].
  destruct (begin_some env st Hd) as (st3 & Hb). rewrite Hb, Hs.
  unfold Chat.exchange, Api.ragStream, Api.authHeaders.
  unfold Terms.sendRequest in Hr. rewrite Hs in Hr.
  pose proof (window_fetch_fst serverStream
                {| call := PostRagStream (Terms.payloadOf st);
                   authorization :=
                     match present (Api.getToken w) with
                     | Some t => Some (lit "Bearer " ++ t)
                     | None => None
                     end |} w) as W.
  destruct (AuthContext.window_fetch serverStream _ w) as [r w1].
  cbn [fst] in W. rewrite W, Hr, Hok, Hbody.
  destruct (Api.read_loop TextDecoder.init [] (chunks strm) (failure strm))
    as [payloads c].
  cbn [snd] in Hf. subst c. reflexivity.
Qed.

Lemma send_read_failure_witness :
  Terms.shows_error
    (fst (Chat.send Spec.env1
            (AuthContext.window_fetch (fun _ => Return Terms.cut_off))
            (AuthContext.window_fetch (fun _ => Return Spec.timed))
            Spec.asking Spec.signed_in))
    (lit "network error").
Proof.
  exact (send_read_failure Spec.env1 (fun _ => Return Terms.cut_off)
           (AuthContext.window_fetch (fun _ => Return Spec.timed))
           Spec.asking Spec.signed_in Terms.cut_off
           {| chunks := [Spec.frame "data: foo"];
              failure := Some (lit "network error") |}
           (lit "network error")
           eq_refl eq_refl eq_refl eq_refl eq_refl eq_refl).
Defined.

Lemma drain_remainder_witness :
  (exists consumed,
      lit "data: a" ++ Api.BLANK_LINE ++ lit "data: par"
      = consumed ++ snd (fst (Api.drain (lit "data: a" ++ Api.BLANK_LINE
                                         ++ lit "data: par"))))
  /\ indexOf (snd (fst (Api.drain (lit "data: a" ++ Api.BLANK_LINE
                                   ++ lit "data: par"))))
             Api.BLANK_LINE = None.
Proof.
  destruct (drain_remainder (lit "data: a" ++ Api.BLANK_LINE
                             ++ lit "data: par")) as [A B].
  split; [exact A | apply B; reflexivity].
Defined.

Lemma sessions_distinct_witness :
  HistoryPage.sessions
    [Terms.visit (Some (lit "s1")); Terms.visit None;
     Terms.visit (Some (lit "s2")); Terms.visit (Some []);
     Terms.visit (Some (lit "s1"))]
  = [lit "s1"; lit "s2"]
  /\ In (lit "s2")
       (HistoryPage.sessions
          [Terms.visit (Some (lit "s1")); Terms.visit None;
           Terms.visit (Some (lit "s2")); Terms.visit (Some []);
           Terms.visit (Some (lit "s1"))]).
Proof.
  split; [reflexivity|].
  destruct (sessions_distinct
              [Terms.visit (Some (lit "s1")); Terms.visit None;
               Terms.visit (Some (lit "s2")); Terms.visit (Some []);
               Terms.visit (Some (lit "s1"))]) as [_ M].
  apply M. exists (Terms.visit (Some (lit "s2"))). split; [|reflexivity].
  simpl. auto.
Defined.
